(** * The negotiation workflow of [frontend/src/App.jsx]

    A shallow embedding of the React component [App]: its state hooks, its
    handlers ([resetWorkflow], [handleClassification], [handleDecomposition],
    [handleValidation], [handleClarification], [handleAlternatives],
    [generateIntent]) and the JSX conditions that decide which control can
    fire which handler.  The older copy of the component kept in the
    repository is embedded next to it, in the module [Legacy].

    Modelling conventions.
    - A JS object used as a dictionary ([selectedServices],
      [services_valides], [decomposition.candidates]) is a [gmap string _]
      holding its own properties; [Object.entries] and [Object.keys]
      enumerate it with [map_to_list].  The enumeration order of an object
      is not modelled beyond that.
    - Reading [o[key]] is [js_get]: it finds the own property, else the
      member of [Object.prototype] of that name ("constructor", "toString"
      and the like), else nothing.  A member is truthy, is not an array and
      has no [service_id].
    - An assignment [validated["__proto__"] = candidate] is kept as an
      ordinary entry of the map, where the engine replaces the prototype of
      the object instead; what is read through such a prototype is not
      modelled.
    - An array is a [list].  A string is the sequence of the bytes of its
      UTF-8 encoding.
    - A handler is a computation in the monad [Act]: it reads the values
      captured by the closure of the render in which the event fired (the
      argument [cl]), writes the hooks through their setters, calls the
      gateway and may throw.  State written before a [throw] stays written,
      as in JS.  The text of a [TypeError] is worded as V8 words it; the
      theorems on exceptions state that a message is shown, not its
      wording.
    - A [fetch] round (request, [response.json()], the [response.ok] test) is
      one call to a [Gateway], which answers with a [Reply].
    - [run], [dispatch] and [next] run one handler to completion, and
      [reachable] collects the states met when every call is answered before
      the next event.  The component leaves some controls enabled while a
      call is pending (the reset buttons, the radio buttons, the request
      field); an event that arrives then is not modelled.
    - Only the conditions under which a control is rendered and enabled are
      taken from the JSX; what the render computes besides is not
      modelled. *)

From stdpp Require Import gmap strings list fin_maps.

Open Scope string_scope.

(** ** Wire data *)

Record DependencyRef := {
  dep_id : string;
  dep_name : string;
  dep_version : string
}.

(** A candidate of the catalogue.  [score] is a float in the source and is
    only rendered; it is kept in thousandths. *)
Record Candidate := {
  service_id : string;
  name : string;
  description : string;
  score : nat;
  dependencies : list DependencyRef
}.

Record IdentifiedService := {
  nom : string;
  raison : string;
  proprietes : list (string * string)
}.

Record Classification := {
  type : string;
  message : string
}.

(** The body of a decomposition or clarification response.  The field
    [pre_validated_services] is optional on the wire. *)
Record Decomposition := {
  services_identifies : list IdentifiedService;
  candidates : gmap string (list Candidate);
  pre_validated_services : option (list string)
}.

Record Intent := {
  intent_name : string;
  characteristic : list string
}.

#[global] Instance DependencyRef_eq_dec : EqDecision DependencyRef.
Proof. solve_decision. Defined.
#[global] Instance Candidate_eq_dec : EqDecision Candidate.
Proof. solve_decision. Defined.
#[global] Instance IdentifiedService_eq_dec : EqDecision IdentifiedService.
Proof. solve_decision. Defined.

(** ** Requests *)

Record ClarifyBody := {
  user_clarification : string;
  services_valides_noms : list string;
  services_refuses : list string;
  original_request : string;
  services_valides_data : gmap string Candidate;
  services_identifies_precedents : list IdentifiedService
}.

Record AlternativesBody := {
  alt_services_refuses : list string;
  alt_services_valides : list string;
  alt_historique : list string
}.

Record GenerateBody := {
  gen_services_valides : gmap string Candidate;
  gen_services_identifies : list IdentifiedService;
  gen_user_request_original : string
}.

Inductive Request :=
| PostClassify (user_input : string)
| PostDecompose (user_input : string)
| PostClarify (body : ClarifyBody)
| PostAlternatives (body : AlternativesBody)
| PostGenerateIntent (body : GenerateBody).

(** What one [fetch] round gives back: a parsed body with [response.ok], a
    parsed body without it (only [data.detail] is read then), or a rejected
    promise ([fetch] or [response.json()] threw). *)
Inductive Reply (A : Type) :=
| Success (data : A)
| HttpError (detail : option string)
| Rejected (err_message : string).
Arguments Success {A} data.
Arguments HttpError {A} detail.
Arguments Rejected {A} err_message.

Record Gateway := {
  api_classify : string -> Reply Classification;
  api_decompose : string -> Reply Decomposition;
  api_clarify : ClarifyBody -> Reply Decomposition;
  api_alternatives : AlternativesBody -> Reply (list string);
  api_generate_intent : GenerateBody -> Reply Intent
}.

(** ** JS helpers *)

(** [Object.keys(o)] and [Object.entries(o)]. *)
Definition Object_entries {V} (o : gmap string V) : list (string * V) :=
  map_to_list o.
Definition Object_keys {V} (o : gmap string V) : list string :=
  (Object_entries o).*1.

(** The names of the properties of [Object.prototype]: every object made by
    a literal, by a spread or by [JSON.parse] inherits them. *)
Definition prototype_members : list string :=
  ["constructor"; "hasOwnProperty"; "isPrototypeOf"; "propertyIsEnumerable";
   "toLocaleString"; "toString"; "valueOf"; "__proto__";
   "__defineGetter__"; "__defineSetter__"; "__lookupGetter__";
   "__lookupSetter__"].

Definition inherited (key : string) : bool :=
  existsb (String.eqb key) prototype_members.
Arguments inherited : simpl never.

(** What [o[key]] evaluates to: the value of an own property, a member of
    [Object.prototype] (a function; the prototype object itself for
    "__proto__"), or [undefined]. *)
Inductive Property (V : Type) :=
| Own (value : V)
| Member
| Absent.
Arguments Own {V} value.
Arguments Member {V}.
Arguments Absent {V}.

Definition js_get {V} (o : gmap string V) (key : string) : Property V :=
  match o !! key with
  | Some value => Own value
  | None => if inherited key then Member else Absent
  end.

(** A value held by [selectedServices]: the [service_id] written by a radio
    button or by the pre-selection, or the [undefined] that the
    pre-selection writes when what it reads has no [service_id]. *)
Inductive Pick :=
| Id (value : string)
| Undefined.

#[global] Instance Pick_eq_dec : EqDecision Pick.
Proof. solve_decision. Defined.

(** [c.service_id === serviceId] *)
Definition same_id (service_id : string) (serviceId : Pick) : bool :=
  match serviceId with
  | Id value => String.eqb service_id value
  | Undefined => false
  end.

(** Truthiness of [selectedServices[nom]]: the empty string and [undefined]
    are falsy, an inherited member is truthy. *)
Definition picked (picks : gmap string Pick) (nom : string) : bool :=
  match js_get picks nom with
  | Own (Id value) => negb (String.eqb value "")
  | Own Undefined => false
  | Member => true
  | Absent => false
  end.

(** Truthiness of an optional string: [null] and the empty string are
    falsy. *)
Definition truthy (v : option string) : bool :=
  match v with
  | Some s => negb (String.eqb s "")
  | None => false
  end.

(** [a || b] on an optional string. *)
Definition js_or (a : option string) (b : string) : string :=
  if truthy a then default b a else b.

(** The white space and line terminators that [String.prototype.trim]
    removes, by the bytes of their UTF-8 encoding.  One byte: U+0009 to
    U+000D and U+0020. *)
Definition is_space (c : Ascii.ascii) : bool :=
  let n := Ascii.nat_of_ascii c in
  Nat.eqb n 32 || (Nat.leb 9 n && Nat.leb n 13).

(** Two bytes: U+00A0. *)
Definition is_space2 (c1 c2 : Ascii.ascii) : bool :=
  Nat.eqb (Ascii.nat_of_ascii c1) 194 && Nat.eqb (Ascii.nat_of_ascii c2) 160.

(** Three bytes: U+1680, U+2000 to U+200A, U+2028, U+2029, U+202F, U+205F,
    U+3000 and U+FEFF. *)
Definition is_space3 (c1 c2 c3 : Ascii.ascii) : bool :=
  let n1 := Ascii.nat_of_ascii c1 in
  let n2 := Ascii.nat_of_ascii c2 in
  let n3 := Ascii.nat_of_ascii c3 in
  (Nat.eqb n1 225 && Nat.eqb n2 154 && Nat.eqb n3 128) ||
  (Nat.eqb n1 226 && Nat.eqb n2 128 &&
   ((Nat.leb 128 n3 && Nat.leb n3 138) || Nat.eqb n3 168 || Nat.eqb n3 169 ||
    Nat.eqb n3 175)) ||
  (Nat.eqb n1 226 && Nat.eqb n2 129 && Nat.eqb n3 159) ||
  (Nat.eqb n1 227 && Nat.eqb n2 128 && Nat.eqb n3 128) ||
  (Nat.eqb n1 239 && Nat.eqb n2 187 && Nat.eqb n3 191).

Fixpoint all_space (s : string) : bool :=
  match s with
  | EmptyString => true
  | String c1 s1 =>
      if is_space c1 then all_space s1
      else
        match s1 with
        | EmptyString => false
        | String c2 s2 =>
            if is_space2 c1 c2 then all_space s2
            else
              match s2 with
              | EmptyString => false
              | String c3 s3 => is_space3 c1 c2 c3 && all_space s3
              end
        end
  end.

(** [!s.trim()] *)
Definition blank (s : string) : bool := all_space s.

(** ** Component state *)

(** The object held by the [conversationState] hook.  Its field
    [services_identifies] is spelled [conv_services_identifies] here, the
    plain name being the field of a response body. *)
Record ConversationState := {
  user_request_original : string;
  services_valides : gmap string Candidate;
  conv_services_identifies : list IdentifiedService;
  historique : list string
}.

Record AppState := {
  activeStep : nat;
  userInput : string;
  loading : bool;
  loadingLabel : string;
  error : option string;
  classification : option Classification;
  decomposition : option Decomposition;
  selectedServices : gmap string Pick;
  validatedServices : list string;
  clarificationResponse : string;
  alternatives : list string;
  finalIntent : option Intent;
  conversationState : ConversationState
}.

Definition emptyConversation : ConversationState :=
  {| user_request_original := "";
     services_valides := ∅;
     conv_services_identifies := [];
     historique := [] |}.

(** The initial values of the [useState] hooks. *)
Definition initialState : AppState :=
  {| activeStep := 0;
     userInput := "";
     loading := false;
     loadingLabel := "";
     error := None;
     classification := None;
     decomposition := None;
     selectedServices := ∅;
     validatedServices := [];
     clarificationResponse := "";
     alternatives := [];
     finalIntent := None;
     conversationState := emptyConversation |}.

(** ** The setters of the hooks

    [setX v] replaces the hook [X] and leaves the others. *)

Definition setActiveStep (v : nat) (st : AppState) : AppState :=
  {| activeStep := v;
     userInput := userInput st;
     loading := loading st;
     loadingLabel := loadingLabel st;
     error := error st;
     classification := classification st;
     decomposition := decomposition st;
     selectedServices := selectedServices st;
     validatedServices := validatedServices st;
     clarificationResponse := clarificationResponse st;
     alternatives := alternatives st;
     finalIntent := finalIntent st;
     conversationState := conversationState st |}.

Definition setUserInput (v : string) (st : AppState) : AppState :=
  {| activeStep := activeStep st;
     userInput := v;
     loading := loading st;
     loadingLabel := loadingLabel st;
     error := error st;
     classification := classification st;
     decomposition := decomposition st;
     selectedServices := selectedServices st;
     validatedServices := validatedServices st;
     clarificationResponse := clarificationResponse st;
     alternatives := alternatives st;
     finalIntent := finalIntent st;
     conversationState := conversationState st |}.

Definition setLoading (v : bool) (st : AppState) : AppState :=
  {| activeStep := activeStep st;
     userInput := userInput st;
     loading := v;
     loadingLabel := loadingLabel st;
     error := error st;
     classification := classification st;
     decomposition := decomposition st;
     selectedServices := selectedServices st;
     validatedServices := validatedServices st;
     clarificationResponse := clarificationResponse st;
     alternatives := alternatives st;
     finalIntent := finalIntent st;
     conversationState := conversationState st |}.

Definition setLoadingLabel (v : string) (st : AppState) : AppState :=
  {| activeStep := activeStep st;
     userInput := userInput st;
     loading := loading st;
     loadingLabel := v;
     error := error st;
     classification := classification st;
     decomposition := decomposition st;
     selectedServices := selectedServices st;
     validatedServices := validatedServices st;
     clarificationResponse := clarificationResponse st;
     alternatives := alternatives st;
     finalIntent := finalIntent st;
     conversationState := conversationState st |}.

Definition setError (v : option string) (st : AppState) : AppState :=
  {| activeStep := activeStep st;
     userInput := userInput st;
     loading := loading st;
     loadingLabel := loadingLabel st;
     error := v;
     classification := classification st;
     decomposition := decomposition st;
     selectedServices := selectedServices st;
     validatedServices := validatedServices st;
     clarificationResponse := clarificationResponse st;
     alternatives := alternatives st;
     finalIntent := finalIntent st;
     conversationState := conversationState st |}.

Definition setClassification (v : option Classification) (st : AppState) : AppState :=
  {| activeStep := activeStep st;
     userInput := userInput st;
     loading := loading st;
     loadingLabel := loadingLabel st;
     error := error st;
     classification := v;
     decomposition := decomposition st;
     selectedServices := selectedServices st;
     validatedServices := validatedServices st;
     clarificationResponse := clarificationResponse st;
     alternatives := alternatives st;
     finalIntent := finalIntent st;
     conversationState := conversationState st |}.

Definition setDecomposition (v : option Decomposition) (st : AppState) : AppState :=
  {| activeStep := activeStep st;
     userInput := userInput st;
     loading := loading st;
     loadingLabel := loadingLabel st;
     error := error st;
     classification := classification st;
     decomposition := v;
     selectedServices := selectedServices st;
     validatedServices := validatedServices st;
     clarificationResponse := clarificationResponse st;
     alternatives := alternatives st;
     finalIntent := finalIntent st;
     conversationState := conversationState st |}.

Definition setSelectedServices (v : gmap string Pick) (st : AppState) : AppState :=
  {| activeStep := activeStep st;
     userInput := userInput st;
     loading := loading st;
     loadingLabel := loadingLabel st;
     error := error st;
     classification := classification st;
     decomposition := decomposition st;
     selectedServices := v;
     validatedServices := validatedServices st;
     clarificationResponse := clarificationResponse st;
     alternatives := alternatives st;
     finalIntent := finalIntent st;
     conversationState := conversationState st |}.

Definition setValidatedServices (v : list string) (st : AppState) : AppState :=
  {| activeStep := activeStep st;
     userInput := userInput st;
     loading := loading st;
     loadingLabel := loadingLabel st;
     error := error st;
     classification := classification st;
     decomposition := decomposition st;
     selectedServices := selectedServices st;
     validatedServices := v;
     clarificationResponse := clarificationResponse st;
     alternatives := alternatives st;
     finalIntent := finalIntent st;
     conversationState := conversationState st |}.

Definition setClarificationResponse (v : string) (st : AppState) : AppState :=
  {| activeStep := activeStep st;
     userInput := userInput st;
     loading := loading st;
     loadingLabel := loadingLabel st;
     error := error st;
     classification := classification st;
     decomposition := decomposition st;
     selectedServices := selectedServices st;
     validatedServices := validatedServices st;
     clarificationResponse := v;
     alternatives := alternatives st;
     finalIntent := finalIntent st;
     conversationState := conversationState st |}.

Definition setAlternatives (v : list string) (st : AppState) : AppState :=
  {| activeStep := activeStep st;
     userInput := userInput st;
     loading := loading st;
     loadingLabel := loadingLabel st;
     error := error st;
     classification := classification st;
     decomposition := decomposition st;
     selectedServices := selectedServices st;
     validatedServices := validatedServices st;
     clarificationResponse := clarificationResponse st;
     alternatives := v;
     finalIntent := finalIntent st;
     conversationState := conversationState st |}.

Definition setFinalIntent (v : option Intent) (st : AppState) : AppState :=
  {| activeStep := activeStep st;
     userInput := userInput st;
     loading := loading st;
     loadingLabel := loadingLabel st;
     error := error st;
     classification := classification st;
     decomposition := decomposition st;
     selectedServices := selectedServices st;
     validatedServices := validatedServices st;
     clarificationResponse := clarificationResponse st;
     alternatives := alternatives st;
     finalIntent := v;
     conversationState := conversationState st |}.

Definition setConversationState (v : ConversationState) (st : AppState) : AppState :=
  {| activeStep := activeStep st;
     userInput := userInput st;
     loading := loading st;
     loadingLabel := loadingLabel st;
     error := error st;
     classification := classification st;
     decomposition := decomposition st;
     selectedServices := selectedServices st;
     validatedServices := validatedServices st;
     clarificationResponse := clarificationResponse st;
     alternatives := alternatives st;
     finalIntent := finalIntent st;
     conversationState := v |}.

(** ** The handler monad

    A handler runs over the hooks and the list of requests it has sent so
    far, and ends with a value or with a thrown [err.message]. *)

Record World := {
  hooks : AppState;
  sent : list Request
}.

Definition Act (A : Type) : Type := World -> (string + A) * World.

Definition ret {A} (a : A) : Act A := fun w => (inr a, w).

Definition throw {A} (msg : string) : Act A := fun w => (inl msg, w).

Definition bind {A B} (m : Act A) (k : A -> Act B) : Act B :=
  fun w =>
    match m w with
    | (inr a, w') => k a w'
    | (inl e, w') => (inl e, w')
    end.

Declare Scope act_scope.
Delimit Scope act_scope with act.
Notation "x <- m ;; k" := (bind m (fun x => k))
  (at level 20, m at level 99, k at level 200, only parsing) : act_scope.
Notation "m ;; k" := (bind m (fun _ => k))
  (at level 100, k at level 200, only parsing, right associativity) : act_scope.

(** A setter call. *)
Definition set (f : AppState -> AppState) : Act unit :=
  fun w => (inr (), {| hooks := f (hooks w); sent := sent w |}).

(** [setConversationState(prev => f(prev))]: the functional form, applied
    to the value the hook holds when the update runs. *)
Definition updateConversationState
    (f : ConversationState -> ConversationState) : Act unit :=
  set (fun st => setConversationState (f (conversationState st)) st).

(** [try { body } catch (err) { handler(err.message) }] *)
Definition try_catch (body : Act unit) (handler : string -> Act unit) : Act unit :=
  fun w =>
    match body w with
    | (inl e, w') => handler e w'
    | (inr u, w') => (inr u, w')
    end.

(** [try { body } finally { fin }] *)
Definition try_finally (body : Act unit) (fin : Act unit) : Act unit :=
  fun w =>
    match body w with
    | (r, w') =>
        match fin w' with
        | (inr _, w'') => (r, w'')
        | (inl e, w'') => (inl e, w'')
        end
    end.

(** One [fetch] round: the request is recorded, then
    [if (!response.ok) throw new Error(data.detail || fallback)]. *)
Definition post {A} (rq : Request) (reply : Reply A) (fallback : string) : Act A :=
  fun w =>
    let w' := {| hooks := hooks w; sent := sent w ++ [rq] |} in
    match reply with
    | Success data => (inr data, w')
    | HttpError detail => (inl (js_or detail fallback), w')
    | Rejected msg => (inl msg, w')
    end.

(** The message of the [TypeError] raised by reading a property of [null],
    and of the one raised by calling what is not a function. *)
Definition null_deref (property : string) : string :=
  "Cannot read properties of null (reading '" +:+ property +:+ "')".
Definition not_a_function (callee : string) : string :=
  callee +:+ " is not a function".

(** [o.property] for a hook [o] that may hold [null]. *)
Definition deref {A} (o : option A) (property : string) : Act A :=
  match o with
  | Some a => ret a
  | None => throw (null_deref property)
  end.

Definition lift {A} (r : string + A) : Act A :=
  match r with
  | inr a => ret a
  | inl e => throw e
  end.

(** ** The handlers *)

Open Scope act_scope.

Definition resetWorkflow : Act unit :=
  set (setActiveStep 0) ;;
  set (setUserInput "") ;;
  set (setError None) ;;
  set (setClassification None) ;;
  set (setDecomposition None) ;;
  set (setSelectedServices ∅) ;;
  set (setValidatedServices []) ;;
  set (setClarificationResponse "") ;;
  set (setAlternatives []) ;;
  set (setFinalIntent None) ;;
  set (setLoadingLabel "") ;;
  set (setConversationState emptyConversation).

Definition handleDecomposition (gw : Gateway) (cl : AppState) : Act unit :=
  set (setLoadingLabel "Décomposition en cours...") ;;
  try_catch
    (data <- post (PostDecompose (userInput cl))
               (api_decompose gw (userInput cl)) "Erreur de décomposition" ;;
     set (setDecomposition (Some data)) ;;
     updateConversationState (fun prev =>
       {| user_request_original := userInput cl;
          services_valides := services_valides prev;
          conv_services_identifies := services_identifies data;
          historique := historique prev ++ ["Demande: " +:+ userInput cl] |}) ;;
     set (setActiveStep 2))
    (fun err => set (setError (Some err))).

Definition handleClassification (gw : Gateway) (cl : AppState) : Act unit :=
  if blank (userInput cl) then
    set (setError (Some "Veuillez entrer une demande"))
  else
    set (setLoading true) ;;
    set (setLoadingLabel "Classification en cours...") ;;
    set (setError None) ;;
    try_finally
      (try_catch
         (data <- post (PostClassify (userInput cl))
                    (api_classify gw (userInput cl)) "Erreur de classification" ;;
          set (setClassification (Some data)) ;;
          if String.eqb (type data) "TELECOM" then
            handleDecomposition gw cl
          else
            set (setActiveStep 1))
         (fun err => set (setError (Some err))))
      (set (setLoading false) ;;
       set (setLoadingLabel "")).

Definition generateIntent (gw : Gateway) (cl : AppState)
    (servicesValides : option (gmap string Candidate))
    (servicesIdentifies : option (list IdentifiedService)) : Act unit :=
  set (setLoading true) ;;
  set (setLoadingLabel "Génération de l'Intent TMF921...") ;;
  set (setError None) ;;
  try_finally
    (try_catch
       (let validated :=
          default (services_valides (conversationState cl)) servicesValides in
        let identified :=
          default (conv_services_identifies (conversationState cl)) servicesIdentifies in
        let body :=
          {| gen_services_valides := validated;
             gen_services_identifies := identified;
             gen_user_request_original :=
               user_request_original (conversationState cl) |} in
        data <- post (PostGenerateIntent body)
                  (api_generate_intent gw body) "Erreur de génération" ;;
        set (setFinalIntent (Some data)) ;;
        set (setActiveStep 4))
       (fun err => set (setError (Some err))))
    (set (setLoading false) ;;
     set (setLoadingLabel "")).

(** The [forEach] over [Object.entries(selectedServices)] that fills
    [validated].  [decomposition.candidates] is read in the loop body, so a
    [null] decomposition throws there.  [candidates?.find(...)] is
    [undefined] when the catalogue has nothing under the name; when the
    name is that of a member of [Object.prototype] and the catalogue has
    no own entry for it, [candidates] is that member, [candidates.find] is
    [undefined] and the call throws. *)
Definition buildValidated (picks : gmap string Pick)
    (dec : option Decomposition) : string + gmap string Candidate :=
  foldl
    (fun acc entry =>
       match acc with
       | inl e => inl e
       | inr validated =>
           let '(serviceName, serviceId) := entry in
           match dec with
           | None => inl (null_deref "candidates")
           | Some d =>
               match js_get (candidates d) serviceName with
               | Own candidates_ =>
                   match List.find (fun c => same_id (service_id c) serviceId)
                           candidates_ with
                   | Some candidate => inr (<[serviceName := candidate]> validated)
                   | None => inr validated
                   end
               | Member => inl (not_a_function "candidates?.find")
               | Absent => inr validated
               end
           end
       end)
    (inr ∅) (Object_entries picks).

(** [services_identifies.every(service => selectedServices[service.nom])] *)
Definition allServicesValidated (picks : gmap string Pick)
    (services : list IdentifiedService) : bool :=
  forallb (fun service => picked picks (nom service)) services.

Definition handleValidation (gw : Gateway) (cl : AppState) : Act unit :=
  if Nat.eqb (length (Object_keys (selectedServices cl))) 0 then
    set (setError (Some "Veuillez sélectionner au moins un service"))
  else
    set (setLoading true) ;;
    set (setLoadingLabel "Validation en cours...") ;;
    set (setError None) ;;
    try_finally
      (try_catch
         (validated <- lift (buildValidated (selectedServices cl) (decomposition cl)) ;;
          d <- deref (decomposition cl) "services_identifies" ;;
          updateConversationState (fun prev =>
            {| user_request_original := user_request_original prev;
               services_valides := validated;
               conv_services_identifies := services_identifies d;
               historique := historique prev |}) ;;
          set (setValidatedServices (Object_keys validated)) ;;
          if allServicesValidated (selectedServices cl) (services_identifies d) then
            generateIntent gw cl (Some validated) (Some (services_identifies d))
          else
            set (setActiveStep 3))
         (fun err => set (setError (Some err))))
      (set (setLoading false) ;;
       set (setLoadingLabel "")).

(** [services_identifies.filter(s => !selectedServices[s.nom]).map(s => s.nom)] *)
Definition refusedServices (picks : gmap string Pick)
    (services : list IdentifiedService) : list string :=
  map nom (List.filter (fun s => negb (picked picks (nom s))) services).

(** [preSelected[svcNom] = value], for a value that is a string or
    [undefined]: under the key "__proto__" the assignment runs the setter
    of [Object.prototype], which ignores such a value. *)
Definition assign (preSelected : gmap string Pick) (svcNom : string)
    (value : Pick) : gmap string Pick :=
  if String.eqb svcNom "__proto__" then preSelected
  else <[svcNom := value]> preSelected.

(** The [forEach] over [data.pre_validated_services] that fills
    [preSelected].  [existingCandidate] is what
    [conversationState.services_valides[svcNom]] reads: a candidate, or a
    member of [Object.prototype], which is truthy and whose [service_id] is
    [undefined].  [data.candidates[svcNom]?.[0]] is the head of the
    catalogue's own list for the name; a member has no element 0. *)
Definition preSelect (valides : gmap string Candidate) (data : Decomposition)
    (names : list string) : gmap string Pick :=
  foldl
    (fun preSelected svcNom =>
       match js_get valides svcNom with
       | Own existingCandidate =>
           assign preSelected svcNom (Id (service_id existingCandidate))
       | Member => assign preSelected svcNom Undefined
       | Absent =>
           match js_get (candidates data) svcNom with
           | Own (first :: _) => assign preSelected svcNom (Id (service_id first))
           | _ => preSelected
           end
       end)
    ∅ names.

Definition clarifyBody (cl : AppState) (d : Decomposition) : ClarifyBody :=
  {| user_clarification := clarificationResponse cl;
     services_valides_noms := validatedServices cl;
     services_refuses := refusedServices (selectedServices cl) (services_identifies d);
     original_request := userInput cl;
     services_valides_data := services_valides (conversationState cl);
     services_identifies_precedents := services_identifies d |}.

Definition handleClarification (gw : Gateway) (cl : AppState) : Act unit :=
  if blank (clarificationResponse cl) then
    set (setError (Some "Veuillez répondre à la question"))
  else
    set (setLoading true) ;;
    set (setLoadingLabel "Analyse en cours...") ;;
    set (setError None) ;;
    try_finally
      (try_catch
         (d <- deref (decomposition cl) "services_identifies" ;;
          let body := clarifyBody cl d in
          data <- post (PostClarify body) (api_clarify gw body)
                    "Erreur de clarification" ;;
          set (setDecomposition (Some data)) ;;
          match pre_validated_services data with
          | Some (svcNom :: rest) =>
              set (setSelectedServices
                     (preSelect (services_valides (conversationState cl)) data
                        (svcNom :: rest)))
          | _ => set (setSelectedServices ∅)
          end ;;
          updateConversationState (fun prev =>
            {| user_request_original := user_request_original prev;
               services_valides := services_valides prev;
               conv_services_identifies := services_identifies data;
               historique :=
                 historique prev ++
                   ["Clarification: " +:+ clarificationResponse cl] |}) ;;
          set (setClarificationResponse "") ;;
          set (setActiveStep 2))
         (fun err => set (setError (Some err))))
      (set (setLoading false) ;;
       set (setLoadingLabel "")).

Definition handleAlternatives (gw : Gateway) (cl : AppState) : Act unit :=
  set (setLoading true) ;;
  set (setLoadingLabel "Recherche d'alternatives...") ;;
  set (setError None) ;;
  try_finally
    (try_catch
       (d <- deref (decomposition cl) "services_identifies" ;;
        let body :=
          {| alt_services_refuses :=
               refusedServices (selectedServices cl) (services_identifies d);
             alt_services_valides := validatedServices cl;
             alt_historique := historique (conversationState cl) |} in
        data <- post (PostAlternatives body) (api_alternatives gw body)
                  "Erreur de recommandation" ;;
        set (setAlternatives data))
       (fun err => set (setError (Some err))))
    (set (setLoading false) ;;
     set (setLoadingLabel "")).

Close Scope act_scope.

(** ** Events and the JSX that enables them *)

(** The operations a button starts. *)
Inductive Operation :=
| OpClassify       (* onClick={handleClassification} *)
| OpValidate       (* onClick={handleValidation} *)
| OpClarify        (* onClick={handleClarification} *)
| OpAlternatives   (* onClick={handleAlternatives} *)
| OpFinish.        (* onClick={() => generateIntent()} *)

Definition handler (gw : Gateway) (op : Operation) : AppState -> Act unit :=
  match op with
  | OpClassify => handleClassification gw
  | OpValidate => handleValidation gw
  | OpClarify => handleClarification gw
  | OpAlternatives => handleAlternatives gw
  | OpFinish => fun cl => generateIntent gw cl None None
  end.

Inductive Event :=
| ChangeUserInput (value : string)
| ChangeRadio (service_nom : string) (value : string)
| ChangeClarification (value : string)
| CloseError
| ClickDownload
| ClickReset
| Click (op : Operation).

(** The card of a step is rendered. *)
Definition step0 (st : AppState) : bool := Nat.eqb (activeStep st) 0.
Definition step1 (st : AppState) : bool :=
  Nat.eqb (activeStep st) 1 &&
  match classification st with
  | Some c => negb (String.eqb (type c) "TELECOM")
  | None => false
  end.
Definition step2 (st : AppState) : bool :=
  Nat.eqb (activeStep st) 2 && bool_decide (is_Some (decomposition st)).
Definition step3 (st : AppState) : bool := Nat.eqb (activeStep st) 3.
Definition step4 (st : AppState) : bool :=
  Nat.eqb (activeStep st) 4 && bool_decide (is_Some (finalIntent st)).

(** A radio button with this value is rendered for this service: the service
    is listed, and [decomposition.candidates[service.nom] || []] holds a
    candidate with that [service_id].  When that expression is a member of
    [Object.prototype], [candidates.every] throws in the render and there is
    no radio button. *)
Definition radio_rendered (st : AppState) (service_nom value : string) : bool :=
  match decomposition st with
  | Some d =>
      existsb (fun service => String.eqb (nom service) service_nom)
        (services_identifies d) &&
      match js_get (candidates d) service_nom with
      | Own candidates_ =>
          existsb (fun candidate => String.eqb (service_id candidate) value)
            candidates_
      | Member | Absent => false
      end
  | None => false
  end.

(** The [disabled] attribute of the button of an operation. *)
Definition disabled (st : AppState) (op : Operation) : bool :=
  match op with
  | OpClassify => loading st || blank (userInput st)
  | OpValidate =>
      loading st || Nat.eqb (length (Object_keys (selectedServices st))) 0
  | OpClarify => loading st || blank (clarificationResponse st)
  | OpAlternatives => loading st
  | OpFinish => loading st || Nat.eqb (length (validatedServices st)) 0
  end.

Definition enabled (st : AppState) (ev : Event) : bool :=
  match ev with
  | ChangeUserInput _ => step0 st
  | ChangeRadio service_nom value => step2 st && radio_rendered st service_nom value
  | ChangeClarification _ => step3 st && negb (loading st)
  | CloseError => truthy (error st)
  | ClickDownload => step4 st
  | ClickReset => step1 st || step2 st || step4 st
  | Click OpClassify => step0 st && negb (disabled st OpClassify)
  | Click OpValidate => step2 st && negb (disabled st OpValidate)
  | Click op => step3 st && negb (disabled st op)
  end.

(** What the callback of an event does, with the closure of the render [cl]. *)
Definition callback (gw : Gateway) (ev : Event) (cl : AppState) : Act unit :=
  match ev with
  | ChangeUserInput value => set (setUserInput value)
  | ChangeRadio service_nom value =>
      set (setSelectedServices (<[service_nom := Id value]> (selectedServices cl)))
  | ChangeClarification value => set (setClarificationResponse value)
  | CloseError => set (setError None)
  | ClickDownload => ret ()
  | ClickReset => resetWorkflow
  | Click op => handler gw op cl
  end.

(** Running a callback from the state [st]: the closure is [st] itself and
    nothing has been sent yet. *)
Definition run (h : AppState -> Act unit) (st : AppState) : World :=
  (h st {| hooks := st; sent := [] |}).2.

(** One event of the user interface; a control that is not rendered or is
    disabled fires nothing. *)
Definition dispatch (gw : Gateway) (ev : Event) (st : AppState) : World :=
  if enabled st ev then run (callback gw ev) st
  else {| hooks := st; sent := [] |}.

Definition next (gw : Gateway) (ev : Event) (st : AppState) : AppState :=
  hooks (dispatch gw ev st).

(** The states met from the initial one, with any events and any answers,
    each event handled to completion before the next. *)
Inductive reachable : AppState -> Prop :=
| reachable_initial : reachable initialState
| reachable_next gw ev st : reachable st -> reachable (next gw ev st).

(** A session: the events in order, each with the gateway that answers it. *)
Definition session (evs : list (Gateway * Event)) (st : AppState) : AppState :=
  foldl (fun st '(gw, ev) => next gw ev st) st evs.

(** ** Auxiliary definitions for the statements *)

(** The candidate a pick designates: the first candidate with the picked
    id in the list that the catalogue holds, as an own entry, for the
    name. *)
Definition pickedCandidate (d : Decomposition)
    (serviceName : string) (serviceId : Pick) : option Candidate :=
  candidates d !! serviceName ≫=
    List.find (fun c => same_id (service_id c) serviceId).

(** The object [resolve] is specified to return: for each pick, the
    candidate it designates, if any. *)
Definition resolved (picks : gmap string Pick) (d : Decomposition)
    : gmap string Candidate :=
  map_imap (fun serviceName serviceId => pickedCandidate d serviceName serviceId) picks.

(** A pick makes the [forEach] of [handleValidation] throw: the catalogue
    has no own entry for its name and the name is that of a member of
    [Object.prototype]. *)
Definition throwing (d : Decomposition) (serviceName : string) : bool :=
  match js_get (candidates d) serviceName with
  | Member => true
  | _ => false
  end.

(** Some pick makes it throw. *)
Definition throws (picks : gmap string Pick) (d : Decomposition) : bool :=
  existsb (throwing d) (Object_keys picks).

(** None of the names is that of a member of [Object.prototype]; so for
    the keys of an object and for the services of a list. *)
Definition plain (names : list string) : bool :=
  forallb (fun key => negb (inherited key)) names.
Definition plain_names {V} (o : gmap string V) : bool :=
  plain (Object_keys o).
Definition plain_services (services : list IdentifiedService) : bool :=
  plain (map nom services).

(** One turn of the [forEach] of [handleValidation], with a decomposition
    at hand. *)
Definition forEach_turn (d : Decomposition)
    (acc : string + gmap string Candidate) (entry : string * Pick)
    : string + gmap string Candidate :=
  match acc with
  | inl e => inl e
  | inr validated =>
      let '(serviceName, serviceId) := entry in
      match js_get (candidates d) serviceName with
      | Own candidates_ =>
          match List.find (fun c => same_id (service_id c) serviceId)
                  candidates_ with
          | Some candidate => inr (<[serviceName := candidate]> validated)
          | None => inr validated
          end
      | Member => inl (not_a_function "candidates?.find")
      | Absent => inr validated
      end
  end.

(** The generate call that [handleValidation] makes when every service has
    a pick. *)
Definition validationBody (cl : AppState) (d : Decomposition) : GenerateBody :=
  {| gen_services_valides := resolved (selectedServices cl) d;
     gen_services_identifies := services_identifies d;
     gen_user_request_original := user_request_original (conversationState cl) |}.

(** The message [catch] receives from a failed round, if it failed. *)
Definition failure {A} (reply : Reply A) (fallback : string) : option string :=
  match reply with
  | Success _ => None
  | HttpError detail => Some (js_or detail fallback)
  | Rejected msg => Some msg
  end.

(** The displayed names are the keys of the validated selection. *)
Definition in_sync (st : AppState) : Prop :=
  validatedServices st = Object_keys (services_valides (conversationState st)).

(** The id [handleClarification] pre-fills for a pre-validated name that
    is not the name of a member of [Object.prototype]: that of the
    candidate the conversation state holds for the name, else that of the
    head of the new catalogue's list, if any. *)
Definition prefill (valides : gmap string Candidate) (data : Decomposition)
    (svcNom : string) : option Pick :=
  match valides !! svcNom with
  | Some existingCandidate => Some (Id (service_id existingCandidate))
  | None => (fun first => Id (service_id first)) <$> (candidates data !! svcNom ≫= head)
  end.

(** The line a request adds to the history, if it adds one: a line for a
    decomposition and a line for a clarification, when the gateway answered
    with success. *)
Definition journal (gw : Gateway) (rq : Request) : option string :=
  match rq with
  | PostDecompose user_input =>
      match api_decompose gw user_input with
      | Success _ => Some ("Demande: " +:+ user_input)
      | _ => None
      end
  | PostClarify body =>
      match api_clarify gw body with
      | Success _ => Some ("Clarification: " +:+ user_clarification body)
      | _ => None
      end
  | PostClassify _ | PostAlternatives _ | PostGenerateIntent _ => None
  end.

(** ** Shapes of the reachable states *)

(** No call is pending: the busy flag is down and its label is empty. *)
Definition idle (st : AppState) : Prop :=
  loading st = false /\ loadingLabel st = "".

(** Nothing of a negotiation is held yet. *)
Definition pristine (st : AppState) : Prop :=
  conversationState st = emptyConversation /\
  decomposition st = None /\
  selectedServices st = ∅ /\
  validatedServices st = [] /\
  alternatives st = [] /\
  clarificationResponse st = "" /\
  finalIntent st = None.

(** A classification is stored, and it is ([telecom]) or is not a TELECOM
    one. *)
Definition classified (telecom : bool) (st : AppState) : Prop :=
  exists c, classification st = Some c /\ String.eqb (type c) "TELECOM" = telecom.

(** What the hooks hold on each card. *)
Definition shaped (st : AppState) : Prop :=
  match activeStep st with
  | 0 => pristine st
  | 1 => pristine st /\ classified false st /\ blank (userInput st) = false
  | 2 | 3 =>
      finalIntent st = None /\ is_Some (decomposition st) /\
      classified true st /\ blank (userInput st) = false
  | 4 =>
      is_Some (finalIntent st) /\ is_Some (decomposition st) /\
      classified true st /\ blank (userInput st) = false
  | _ => False
  end.

(** The guard with which the handler of an operation starts refuses to
    run: a blank request, no pick, a blank clarification. *)
Definition refuses (cl : AppState) (op : Operation) : bool :=
  match op with
  | OpClassify => blank (userInput cl)
  | OpValidate => Nat.eqb (length (Object_keys (selectedServices cl))) 0
  | OpClarify => blank (clarificationResponse cl)
  | OpAlternatives | OpFinish => false
  end.


(** The moves between cards that the handlers make. *)
Definition allowed (from to : nat) : bool :=
  match from, to with
  | 0, (0 | 1 | 2) => true
  | 1, (1 | 0) => true
  | 2, (2 | 3 | 4 | 0) => true
  | 3, (3 | 2 | 4) => true
  | 4, (4 | 0) => true
  | _, _ => false
  end.

(** The message a request ends with when its round fails. *)
Definition reply_failure (gw : Gateway) (rq : Request) : option string :=
  match rq with
  | PostClassify user_input =>
      failure (api_classify gw user_input) "Erreur de classification"
  | PostDecompose user_input =>
      failure (api_decompose gw user_input) "Erreur de décomposition"
  | PostClarify body => failure (api_clarify gw body) "Erreur de clarification"
  | PostAlternatives body =>
      failure (api_alternatives gw body) "Erreur de recommandation"
  | PostGenerateIntent body =>
      failure (api_generate_intent gw body) "Erreur de génération"
  end.

(** ** A concrete negotiation

    The request of the specification's scenario: two services, "Camera" and
    "Alert", and the answers of a gateway over two rounds. *)
Module Scenario.

Definition candidate (id : string) : Candidate :=
  {| service_id := id; name := id; description := ""; score := 800;
     dependencies := [] |}.

Definition service (n : string) : IdentifiedService :=
  {| nom := n; raison := ""; proprietes := [] |}.

Definition request : string := "5G camera with SMS alert".

(** First round: one candidate for the camera, one for the alert. *)
Definition round1 : Decomposition :=
  {| services_identifies := [service "Camera"; service "Alert"];
     candidates := {[ "Camera" := [candidate "cam-A"];
                      "Alert" := [candidate "sms-A"] ]};
     pre_validated_services := None |}.

(** A clarification answer that names no pre-validated service. *)
Definition round2_plain : Decomposition :=
  {| services_identifies := [service "Camera"; service "Alert"];
     candidates := {[ "Camera" := [candidate "cam-A"];
                      "Alert" := [candidate "sms-B"] ]};
     pre_validated_services := None |}.

(** A clarification answer that names "Camera" as pre-validated, with a
    catalogue in which the camera validated before no longer occurs. *)
Definition round2_moved : Decomposition :=
  {| services_identifies := [service "Camera"; service "Alert"];
     candidates := {[ "Camera" := [candidate "cam-B"];
                      "Alert" := [candidate "sms-B"] ]};
     pre_validated_services := Some ["Camera"] |}.

(** The same, for a round in which the camera is the only service left. *)
Definition round2_single : Decomposition :=
  {| services_identifies := [service "Camera"];
     candidates := {[ "Camera" := [candidate "cam-B"] ]};
     pre_validated_services := Some ["Camera"] |}.

(** The same, with a catalogue that has no entry at all for "Camera". *)
Definition round2_gone : Decomposition :=
  {| services_identifies := [service "Camera"; service "Alert"];
     candidates := {[ "Alert" := [candidate "sms-B"] ]};
     pre_validated_services := Some ["Camera"] |}.

Definition intent : Intent :=
  {| intent_name := "camera-intent"; characteristic := [] |}.

(** A gateway that answers every call, the clarification with [clarified]. *)
Definition gateway (clarified : Decomposition) : Gateway :=
  {| api_classify := fun _ => Success {| type := "TELECOM"; message := "" |};
     api_decompose := fun _ => Success round1;
     api_clarify := fun _ => Success clarified;
     api_alternatives := fun _ => Success ["Siren"];
     api_generate_intent := fun _ => Success intent |}.

(** The same gateway with a generation service that is down. *)
Definition gateway_no_generate (clarified : Decomposition) : Gateway :=
  {| api_classify := api_classify (gateway clarified);
     api_decompose := api_decompose (gateway clarified);
     api_clarify := api_clarify (gateway clarified);
     api_alternatives := api_alternatives (gateway clarified);
     api_generate_intent := fun _ => HttpError (Some "generation unavailable") |}.

(** A gateway whose classifier sees a greeting. *)
Definition gateway_greeting : Gateway :=
  {| api_classify := fun _ => Success {| type := "GREETING"; message := "Bonjour" |};
     api_decompose := fun _ => Rejected "unreachable";
     api_clarify := fun _ => Rejected "unreachable";
     api_alternatives := fun _ => Rejected "unreachable";
     api_generate_intent := fun _ => Rejected "unreachable" |}.

(** The request is typed and analysed: the validation card of round one. *)
Definition decomposed (gw : Gateway) : AppState :=
  session [(gw, ChangeUserInput request); (gw, Click OpClassify)] initialState.

(** Only the camera is picked and validated, then the user clarifies. *)
Definition camera_validated (gw : Gateway) : AppState :=
  session [(gw, ChangeRadio "Camera" "cam-A"); (gw, Click OpValidate)]
    (decomposed gw).

(** The clarification is typed, not yet sent. *)
Definition typed (gw : Gateway) : AppState :=
  next gw (ChangeClarification "SMS only") (camera_validated gw).

Definition clarified (gw : Gateway) : AppState :=
  session [(gw, ChangeClarification "SMS only"); (gw, Click OpClarify)]
    (camera_validated gw).

(** The pick of "Camera" is pre-filled, the catalogue has no "Camera". *)
Definition camera_unlisted : AppState := clarified (gateway round2_gone).

(** The pre-filled pick of "Camera" no longer resolves; it is validated
    as it stands, the alert still unpicked. *)
Definition nothing_validated : AppState :=
  next (gateway round2_moved) (Click OpValidate) (clarified (gateway round2_moved)).

(** The camera is the only service of round two; its pick is pre-filled. *)
Definition camera_only : AppState := clarified (gateway round2_single).

(** A first round with a service that bears the name of a member of
    [Object.prototype], and a clarification answer that names it as
    pre-validated and lists it no longer. *)
Definition round1_member : Decomposition :=
  {| services_identifies := [service "constructor"; service "Alert"];
     candidates := {[ "constructor" := [candidate "ctor-A"];
                      "Alert" := [candidate "sms-A"] ]};
     pre_validated_services := None |}.

Definition round2_member : Decomposition :=
  {| services_identifies := [service "Alert"];
     candidates := {[ "Alert" := [candidate "sms-B"] ]};
     pre_validated_services := Some ["constructor"] |}.

(** A first round in which that service has a catalogue entry and is left
    unpicked. *)
Definition round1_unpicked : Decomposition :=
  {| services_identifies := [service "Camera"; service "constructor"];
     candidates := {[ "Camera" := [candidate "cam-A"];
                      "constructor" := [candidate "ctor-A"] ]};
     pre_validated_services := None |}.

(** A clarification answer that names as pre-validated a service that was
    never validated and that the catalogue does not list. *)
Definition round2_named : Decomposition :=
  {| services_identifies := [service "Camera"; service "Alert"];
     candidates := {[ "Camera" := [candidate "cam-A"];
                      "Alert" := [candidate "sms-B"] ]};
     pre_validated_services := Some ["toString"] |}.

Definition gateway_member : Gateway :=
  {| api_classify := api_classify (gateway round2_member);
     api_decompose := fun _ => Success round1_member;
     api_clarify := api_clarify (gateway round2_member);
     api_alternatives := api_alternatives (gateway round2_member);
     api_generate_intent := api_generate_intent (gateway round2_member) |}.

(** That service is picked and validated, then the user clarifies: its
    pick is pre-filled on the validation card of round two. *)
Definition member_prefilled : AppState :=
  session
    [(gateway_member, ChangeUserInput request);
     (gateway_member, Click OpClassify);
     (gateway_member, ChangeRadio "constructor" "ctor-A");
     (gateway_member, Click OpValidate);
     (gateway_member, ChangeClarification "SMS only");
     (gateway_member, Click OpClarify)]
    initialState.

(** Both services of round one are picked; the generation service is
    down. *)
Definition generation_down : AppState :=
  session
    [(gateway_no_generate round2_plain, ChangeRadio "Camera" "cam-A");
     (gateway_no_generate round2_plain, ChangeRadio "Alert" "sms-A")]
    (decomposed (gateway_no_generate round2_plain)).

(** Both services of round one are picked. *)
Definition all_picked (gw : Gateway) : AppState :=
  session [(gw, ChangeRadio "Camera" "cam-A"); (gw, ChangeRadio "Alert" "sms-A")]
    (decomposed gw).

(** In the second round the user picks the alert, and nothing else. *)
Definition alert_picked : AppState :=
  next (gateway round2_plain) (ChangeRadio "Alert" "sms-B")
    (clarified (gateway round2_plain)).

(** The gateway of the scenario with another first round. *)
Definition gateway_round1 (round1 clarified : Decomposition) : Gateway :=
  {| api_classify := api_classify (gateway clarified);
     api_decompose := fun _ => Success round1;
     api_clarify := api_clarify (gateway clarified);
     api_alternatives := api_alternatives (gateway clarified);
     api_generate_intent := api_generate_intent (gateway clarified) |}.

(** Of "Camera" and "constructor" only the camera is picked. *)
Definition camera_of_two : AppState :=
  session
    [(gateway_round1 round1_unpicked round2_plain, ChangeUserInput request);
     (gateway_round1 round1_unpicked round2_plain, Click OpClassify);
     (gateway_round1 round1_unpicked round2_plain, ChangeRadio "Camera" "cam-A")]
    initialState.

End Scenario.

(** ** The earlier revision of the component

    The repository holds a second, older copy of the component
    ([src/unnamed/part_000]).  The two differences that matter first are
    modelled first: the body of the clarification request has four fields,
    and the catalogue lookup of [handleValidation] is [candidates.find],
    without optional chaining.  The handlers of that copy follow. *)
Module Legacy.

Record ClarifyBody := {
  user_clarification : string;
  services_valides_noms : list string;
  services_refuses : list string;
  original_request : string
}.

Definition clarifyBody (cl : AppState) (d : Decomposition) : ClarifyBody :=
  {| user_clarification := clarificationResponse cl;
     services_valides_noms := validatedServices cl;
     services_refuses :=
       refusedServices (selectedServices cl) (services_identifies d);
     original_request := userInput cl |}.

(** The message of the [TypeError] raised by reading a property of
    [undefined]. *)
Definition undefined_deref (property : string) : string :=
  "Cannot read properties of undefined (reading '" +:+ property +:+ "')".

(** The [forEach] of [handleValidation] with [candidates.find]: it throws
    when the catalogue has nothing under the name, and when what it has is
    a member of [Object.prototype]. *)
Definition buildValidated (picks : gmap string Pick)
    (dec : option Decomposition) : string + gmap string Candidate :=
  foldl
    (fun acc entry =>
       match acc with
       | inl e => inl e
       | inr validated =>
           let '(serviceName, serviceId) := entry in
           match dec with
           | None => inl (null_deref "candidates")
           | Some d =>
               match js_get (candidates d) serviceName with
               | Own candidates_ =>
                   match List.find (fun c => same_id (service_id c) serviceId)
                           candidates_ with
                   | Some candidate => inr (<[serviceName := candidate]> validated)
                   | None => inr validated
                   end
               | Member => inl (not_a_function "candidates.find")
               | Absent => inl (undefined_deref "find")
               end
           end
       end)
    (inr ∅) (Object_entries picks).

(** *** The handlers of the earlier revision

    The earlier revision has no [loadingLabel] hook: its handlers leave
    that field of [AppState] alone.  Its requests are those of the current
    revision, but for the body of the clarification. *)

Inductive Request :=
| PostClassify (user_input : string)
| PostDecompose (user_input : string)
| PostClarify (body : ClarifyBody)
| PostAlternatives (body : AlternativesBody)
| PostGenerateIntent (body : GenerateBody).

Record Gateway := {
  api_classify : string -> Reply Classification;
  api_decompose : string -> Reply Decomposition;
  api_clarify : ClarifyBody -> Reply Decomposition;
  api_alternatives : AlternativesBody -> Reply (list string);
  api_generate_intent : GenerateBody -> Reply Intent
}.

Record World := {
  hooks : AppState;
  sent : list Request
}.

Definition Act (A : Type) : Type := World -> (string + A) * World.

Definition ret {A} (a : A) : Act A := fun w => (inr a, w).

Definition throw {A} (msg : string) : Act A := fun w => (inl msg, w).

Definition bind {A B} (m : Act A) (k : A -> Act B) : Act B :=
  fun w =>
    match m w with
    | (inr a, w') => k a w'
    | (inl e, w') => (inl e, w')
    end.

Declare Scope legacy_scope.
Delimit Scope legacy_scope with legacy.
Notation "x <- m ;; k" := (bind m (fun x => k))
  (at level 20, m at level 99, k at level 200, only parsing) : legacy_scope.
Notation "m ;; k" := (bind m (fun _ => k))
  (at level 100, k at level 200, only parsing, right associativity) : legacy_scope.

Definition set (f : AppState -> AppState) : Act unit :=
  fun w => (inr (), {| hooks := f (hooks w); sent := sent w |}).

Definition updateConversationState
    (f : ConversationState -> ConversationState) : Act unit :=
  set (fun st => setConversationState (f (conversationState st)) st).

Definition try_catch (body : Act unit) (handler : string -> Act unit) : Act unit :=
  fun w =>
    match body w with
    | (inl e, w') => handler e w'
    | (inr u, w') => (inr u, w')
    end.

Definition try_finally (body : Act unit) (fin : Act unit) : Act unit :=
  fun w =>
    match body w with
    | (r, w') =>
        match fin w' with
        | (inr _, w'') => (r, w'')
        | (inl e, w'') => (inl e, w'')
        end
    end.

Definition post {A} (rq : Request) (reply : Reply A) (fallback : string) : Act A :=
  fun w =>
    let w' := {| hooks := hooks w; sent := sent w ++ [rq] |} in
    match reply with
    | Success data => (inr data, w')
    | HttpError detail => (inl (js_or detail fallback), w')
    | Rejected msg => (inl msg, w')
    end.

Definition deref {A} (o : option A) (property : string) : Act A :=
  match o with
  | Some a => ret a
  | None => throw (null_deref property)
  end.

Definition lift {A} (r : string + A) : Act A :=
  match r with
  | inr a => ret a
  | inl e => throw e
  end.

Open Scope legacy_scope.

Definition resetWorkflow : Act unit :=
  set (setActiveStep 0) ;;
  set (setUserInput "") ;;
  set (setError None) ;;
  set (setClassification None) ;;
  set (setDecomposition None) ;;
  set (setSelectedServices ∅) ;;
  set (setValidatedServices []) ;;
  set (setClarificationResponse "") ;;
  set (setAlternatives []) ;;
  set (setFinalIntent None) ;;
  set (setConversationState emptyConversation).

Definition handleDecomposition (gw : Gateway) (cl : AppState) : Act unit :=
  set (setLoading true) ;;
  set (setError None) ;;
  try_finally
    (try_catch
       (data <- post (PostDecompose (userInput cl))
                  (api_decompose gw (userInput cl)) "Erreur de décomposition" ;;
        set (setDecomposition (Some data)) ;;
        updateConversationState (fun prev =>
          {| user_request_original := userInput cl;
             services_valides := services_valides prev;
             conv_services_identifies := services_identifies data;
             historique := historique prev ++ ["Demande: " +:+ userInput cl] |}) ;;
        set (setActiveStep 2))
       (fun err => set (setError (Some err))))
    (set (setLoading false)).

Definition handleClassification (gw : Gateway) (cl : AppState) : Act unit :=
  if blank (userInput cl) then
    set (setError (Some "Veuillez entrer une demande"))
  else
    set (setLoading true) ;;
    set (setError None) ;;
    try_finally
      (try_catch
         (data <- post (PostClassify (userInput cl))
                    (api_classify gw (userInput cl)) "Erreur de classification" ;;
          set (setClassification (Some data)) ;;
          if String.eqb (type data) "TELECOM" then
            handleDecomposition gw cl
          else
            set (setActiveStep 1))
         (fun err => set (setError (Some err))))
      (set (setLoading false)).

Definition generateIntent (gw : Gateway) (cl : AppState)
    (servicesValides : option (gmap string Candidate))
    (servicesIdentifies : option (list IdentifiedService)) : Act unit :=
  set (setLoading true) ;;
  set (setError None) ;;
  try_finally
    (try_catch
       (let validated :=
          default (services_valides (conversationState cl)) servicesValides in
        let identified :=
          default (conv_services_identifies (conversationState cl)) servicesIdentifies in
        let body :=
          {| gen_services_valides := validated;
             gen_services_identifies := identified;
             gen_user_request_original :=
               user_request_original (conversationState cl) |} in
        data <- post (PostGenerateIntent body)
                  (api_generate_intent gw body) "Erreur de génération" ;;
        set (setFinalIntent (Some data)) ;;
        set (setActiveStep 4))
       (fun err => set (setError (Some err))))
    (set (setLoading false)).

Definition handleValidation (gw : Gateway) (cl : AppState) : Act unit :=
  if Nat.eqb (length (Object_keys (selectedServices cl))) 0 then
    set (setError (Some "Veuillez sélectionner au moins un service"))
  else
    set (setLoading true) ;;
    set (setError None) ;;
    try_finally
      (try_catch
         (validated <- lift (buildValidated (selectedServices cl) (decomposition cl)) ;;
          d <- deref (decomposition cl) "services_identifies" ;;
          updateConversationState (fun prev =>
            {| user_request_original := user_request_original prev;
               services_valides := validated;
               conv_services_identifies := conv_services_identifies prev;
               historique := historique prev |}) ;;
          set (setValidatedServices (Object_keys validated)) ;;
          if allServicesValidated (selectedServices cl) (services_identifies d) then
            generateIntent gw cl (Some validated) (Some (services_identifies d))
          else
            set (setActiveStep 3))
         (fun err => set (setError (Some err))))
      (set (setLoading false)).

Definition handleClarification (gw : Gateway) (cl : AppState) : Act unit :=
  if blank (clarificationResponse cl) then
    set (setError (Some "Veuillez répondre à la question"))
  else
    set (setLoading true) ;;
    set (setError None) ;;
    try_finally
      (try_catch
         (d <- deref (decomposition cl) "services_identifies" ;;
          let body := clarifyBody cl d in
          data <- post (PostClarify body) (api_clarify gw body)
                    "Erreur de clarification" ;;
          set (setDecomposition (Some data)) ;;
          set (setSelectedServices ∅) ;;
          set (setClarificationResponse "") ;;
          set (setActiveStep 2))
         (fun err => set (setError (Some err))))
      (set (setLoading false)).

Definition handleAlternatives (gw : Gateway) (cl : AppState) : Act unit :=
  set (setLoading true) ;;
  set (setError None) ;;
  try_finally
    (try_catch
       (d <- deref (decomposition cl) "services_identifies" ;;
        let body :=
          {| alt_services_refuses :=
               refusedServices (selectedServices cl) (services_identifies d);
             alt_services_valides := validatedServices cl;
             alt_historique := historique (conversationState cl) |} in
        data <- post (PostAlternatives body) (api_alternatives gw body)
                  "Erreur de recommandation" ;;
        set (setAlternatives data))
       (fun err => set (setError (Some err))))
    (set (setLoading false)).

Close Scope legacy_scope.

Definition handler (gw : Gateway) (op : Operation) : AppState -> Act unit :=
  match op with
  | OpClassify => handleClassification gw
  | OpValidate => handleValidation gw
  | OpClarify => handleClarification gw
  | OpAlternatives => handleAlternatives gw
  | OpFinish => fun cl => generateIntent gw cl None None
  end.

(** The JSX of the earlier revision enables the same controls under the
    same conditions, but for the clarification field, which it does not
    disable while a call is pending. *)
Definition enabled (st : AppState) (ev : Event) : bool :=
  match ev with
  | ChangeClarification _ => step3 st
  | _ => enabled st ev
  end.

Definition callback (gw : Gateway) (ev : Event) (cl : AppState) : Act unit :=
  match ev with
  | ChangeUserInput value => set (setUserInput value)
  | ChangeRadio service_nom value =>
      set (setSelectedServices (<[service_nom := Id value]> (selectedServices cl)))
  | ChangeClarification value => set (setClarificationResponse value)
  | CloseError => set (setError None)
  | ClickDownload => ret ()
  | ClickReset => resetWorkflow
  | Click op => handler gw op cl
  end.

Definition run (h : AppState -> Act unit) (st : AppState) : World :=
  (h st {| hooks := st; sent := [] |}).2.

Definition dispatch (gw : Gateway) (ev : Event) (st : AppState) : World :=
  if enabled st ev then run (callback gw ev) st
  else {| hooks := st; sent := [] |}.

Definition next (gw : Gateway) (ev : Event) (st : AppState) : AppState :=
  hooks (dispatch gw ev st).

Inductive reachable : AppState -> Prop :=
| reachable_initial : reachable initialState
| reachable_next gw ev st : reachable st -> reachable (next gw ev st).



(** A session of the earlier revision, and the negotiation of [Scenario]
    run on it. *)
Definition session (evs : list (Gateway * Event)) (st : AppState) : AppState :=
  foldl (fun st '(gw, ev) => next gw ev st) st evs.

Definition gateway (clarified : Decomposition) : Gateway :=
  {| api_classify := fun _ => Success {| type := "TELECOM"; message := "" |};
     api_decompose := fun _ => Success Scenario.round1;
     api_clarify := fun _ => Success clarified;
     api_alternatives := fun _ => Success ["Siren"];
     api_generate_intent := fun _ => Success Scenario.intent |}.

Definition decomposed (gw : Gateway) : AppState :=
  session [(gw, ChangeUserInput Scenario.request); (gw, Click OpClassify)]
    initialState.

Definition camera_picked (gw : Gateway) : AppState :=
  next gw (ChangeRadio "Camera" "cam-A") (decomposed gw).

Definition clarified (gw : Gateway) : AppState :=
  session
    [(gw, Click OpValidate); (gw, ChangeClarification "SMS only");
     (gw, Click OpClarify)]
    (camera_picked gw).

End Legacy.

(** ** More concrete states *)
Module Cases.

Definition gw : Gateway := Scenario.gateway Scenario.round2_plain.
Definition gw_down : Gateway := Scenario.gateway_no_generate Scenario.round2_plain.
Definition old : Legacy.Gateway := Legacy.gateway Scenario.round2_plain.

Definition greeting : Classification := {| type := "GREETING"; message := "Bonjour" |}.
Definition telecom : Classification := {| type := "TELECOM"; message := "" |}.

(** A greeting is typed, then analysed. *)
Definition hello_typed : AppState :=
  next Scenario.gateway_greeting (ChangeUserInput "Hello") initialState.
Definition greeted : AppState :=
  next Scenario.gateway_greeting (Click OpClassify) hello_typed.

(** The request of the scenario is typed. *)
Definition request_typed : AppState :=
  next gw (ChangeUserInput Scenario.request) initialState.

(** The first round is on the validation card; then the camera is picked. *)
Definition decomposed : AppState := Scenario.decomposed gw.
Definition camera_picked : AppState :=
  next gw (ChangeRadio "Camera" "cam-A") decomposed.

(** The camera is validated: the clarification card. *)
Definition camera_validated : AppState := Scenario.camera_validated gw.

(** The second round is on the validation card. *)
Definition clarified : AppState := Scenario.clarified gw.

(** The earlier revision: the camera is picked; it is validated and a
    clarification is typed. *)
Definition old_camera_picked : AppState := Legacy.camera_picked old.
Definition old_typed : AppState :=
  Legacy.session [(old, Click OpValidate); (old, ChangeClarification "SMS only")]
    old_camera_picked.

(** The earlier revision after a clarification that leaves the camera as
    the only service. *)
Definition old_clarified : AppState :=
  Legacy.clarified (Legacy.gateway Scenario.round2_single).

End Cases.

(** * Properties *)

(** ** Reading a property *)


Lemma js_get_plain {V} (o : gmap string V) key :
  inherited key = false ->
  js_get o key = match o !! key with Some value => Own value | None => Absent end.
Proof. unfold js_get. intros ->. by destruct (o !! key). Qed.

Lemma js_get_member {V} (o : gmap string V) key :
  js_get o key = Member <-> o !! key = None /\ inherited key = true.
Proof.
  unfold js_get. destruct (o !! key); [split; [done|by intros [? _]]|].
  destruct (inherited key); split; try done. by intros [_ ?].
Qed.

Lemma elem_of_keys {V} (o : gmap string V) key :
  key ∈ Object_keys o <-> is_Some (o !! key).
Proof.
  unfold Object_keys, Object_entries. rewrite list_elem_of_fmap. split.
  - intros ([k v] & -> & Hin). apply elem_of_map_to_list in Hin. by eexists.
  - intros [v Hv]. exists (key, v). split; [done|]. by apply elem_of_map_to_list.
Qed.

Lemma plain_spec names :
  plain names = true <-> forall key, key ∈ names -> inherited key = false.
Proof.
  unfold plain. rewrite forallb_forall. split.
  - intros H key Hin. apply negb_true_iff, H, list_elem_of_In, Hin.
  - intros H key Hin. apply negb_true_iff, H, list_elem_of_In, Hin.
Qed.

Lemma plain_names_spec {V} (o : gmap string V) :
  plain_names o = true <-> forall key, is_Some (o !! key) -> inherited key = false.
Proof.
  unfold plain_names. rewrite plain_spec. split.
  - intros H key Hk. by apply H, elem_of_keys.
  - intros H key Hin. by apply H, elem_of_keys.
Qed.

Lemma plain_services_spec services :
  plain_services services = true <->
  forall service, service ∈ services -> inherited (nom service) = false.
Proof.
  unfold plain_services. rewrite plain_spec. split.
  - intros H service Hin. apply H, list_elem_of_fmap. by exists service.
  - intros H key Hin. apply list_elem_of_fmap in Hin as (service & -> & Hin).
    by apply H.
Qed.

Lemma plain_not_proto key : inherited key = false -> String.eqb key "__proto__" = false.
Proof.
  intros Hplain. apply String.eqb_neq. intros ->. by vm_compute in Hplain.
Qed.

(** A pick makes the loop throw exactly when the catalogue has no own
    entry for its name and the name is inherited. *)
Lemma throws_spec picks d :
  throws picks d = true <->
  exists serviceName,
    is_Some (picks !! serviceName) /\
    candidates d !! serviceName = None /\ inherited serviceName = true.
Proof.
  unfold throws, throwing. rewrite existsb_exists. split.
  - intros (n & Hin & Hn). exists n.
    split; [by apply elem_of_keys, list_elem_of_In|].
    apply js_get_member. by destruct (js_get (candidates d) n).
  - intros (n & Hp & Hc & Hi). exists n.
    split; [by apply list_elem_of_In, elem_of_keys|].
    by rewrite (proj2 (js_get_member (candidates d) n) (conj Hc Hi)).
Qed.

Lemma plain_names_throws picks d : plain_names picks = true -> throws picks d = false.
Proof.
  intros Hplain. apply not_true_iff_false. rewrite throws_spec.
  intros (n & Hp & _ & Hi).
  by rewrite (proj1 (plain_names_spec picks) Hplain n Hp) in Hi.
Qed.

(** ** The selection reducer *)

Section Reducer.
Variable d : Decomposition.

Local Abbreviation turn := (forEach_turn d).

Lemma buildValidated_unfold picks :
  buildValidated picks (Some d) = foldl turn (inr ∅) (Object_entries picks).
Proof. reflexivity. Qed.

(** Once an exception is thrown the loop is left. *)
Lemma turn_thrown e (entries : list (string * Pick)) :
  foldl turn (inl e) entries = inl e.
Proof. induction entries as [|[k id] entries IH]; [done|exact IH]. Qed.

Lemma turn_plain validated serviceName serviceId :
  throwing d serviceName = false ->
  turn (inr validated) (serviceName, serviceId) =
    inr match pickedCandidate d serviceName serviceId with
        | Some c => <[serviceName := c]> validated
        | None => validated
        end.
Proof.
  unfold throwing, forEach_turn, pickedCandidate, js_get.
  destruct (candidates d !! serviceName) as [cands|]; cbn.
  - intros _. by destruct (List.find _ cands).
  - by destruct (inherited serviceName).
Qed.

Lemma turn_member validated serviceName serviceId :
  throwing d serviceName = true ->
  turn (inr validated) (serviceName, serviceId)
  = inl (not_a_function "candidates?.find").
Proof.
  unfold throwing, forEach_turn.
  by destruct (js_get (candidates d) serviceName).
Qed.

(** The loop over entries with distinct keys, none of which throws: each
    key ends with the candidate of its own entry, or with what [acc]
    held. *)
Lemma foldl_turn (entries : list (string * Pick)) :
  NoDup entries.*1 ->
  Forall (fun entry => throwing d entry.1 = false) entries ->
  forall acc : gmap string Candidate,
  exists validated,
    foldl turn (inr acc) entries = inr validated /\
    forall n,
      validated !! n =
        match (list_to_map entries : gmap string Pick) !! n with
        | Some id =>
            match pickedCandidate d n id with
            | Some c => Some c
            | None => acc !! n
            end
        | None => acc !! n
        end.
Proof.
  induction entries as [|[k id] entries IH]; intros Hnd Hplain acc.
  - exists acc. split; [reflexivity|]. intros n. simpl. by rewrite lookup_empty.
  - rewrite fmap_cons in Hnd. apply NoDup_cons in Hnd as [Hk Hnd].
    apply Forall_cons in Hplain as [Hkplain Hplain].
    simpl in Hk, Hkplain. cbn [foldl]. rewrite (turn_plain _ _ _ Hkplain).
    destruct (IH Hnd Hplain
                (match pickedCandidate d k id with
                 | Some c => <[k := c]> acc
                 | None => acc
                 end)) as (v & Hv & Hlook).
    exists v. split; [exact Hv|].
    intros n. rewrite Hlook. cbn [list_to_map foldr uncurry fst snd].
    destruct (decide (k = n)) as [->|Hne].
    + rewrite lookup_insert_eq.
      rewrite (not_elem_of_list_to_map_1 _ n Hk).
      destruct (pickedCandidate d n id); [by rewrite lookup_insert_eq|done].
    + rewrite lookup_insert_ne by done.
      destruct (pickedCandidate d k id); [|done].
      by rewrite lookup_insert_ne.
Qed.

(** The loop over entries one of which throws. *)
Lemma foldl_turn_member (entries : list (string * Pick)) :
  Exists (fun entry => throwing d entry.1 = true) entries ->
  forall acc : gmap string Candidate,
    foldl turn (inr acc) entries = inl (not_a_function "candidates?.find").
Proof.
  induction entries as [|[k id] entries IH]; intros Hex acc.
  - by apply Exists_nil in Hex.
  - cbn [foldl]. destruct (throwing d k) eqn:Hk.
    + rewrite (turn_member _ _ _ Hk). apply turn_thrown.
    + rewrite (turn_plain _ _ _ Hk). apply IH.
      apply Exists_cons in Hex as [Hex|Hex]; [|done]. simpl in Hex. congruence.
Qed.

Lemma resolved_lookup picks n :
  resolved picks d !! n = picks !! n ≫= pickedCandidate d n.
Proof. unfold resolved. by rewrite map_lookup_imap. Qed.

(** With a decomposition at hand and no pick that throws, the construction
    returns [resolved]. *)
Lemma buildValidated_plain picks :
  throws picks d = false ->
  buildValidated picks (Some d) = inr (resolved picks d).
Proof.
  intros Hplain. rewrite buildValidated_unfold.
  destruct (foldl_turn (Object_entries picks) (NoDup_fst_map_to_list picks))
    with (acc := (∅ : gmap string Candidate)) as (v & -> & Hlook).
  { apply Forall_forall. intros [k id] Hin. simpl.
    apply not_true_iff_false. intros Hk.
    apply not_true_iff_false in Hplain. apply Hplain.
    unfold throws. apply existsb_exists. exists k. split; [|done].
    apply list_elem_of_In. unfold Object_keys.
    apply list_elem_of_fmap. by exists (k, id). }
  f_equal. apply map_eq. intros n. rewrite Hlook.
  unfold Object_entries. rewrite list_to_map_to_list, resolved_lookup.
  destruct (picks !! n) as [id|]; simpl; [|by rewrite lookup_empty].
  destruct (pickedCandidate d n id); [done|by rewrite lookup_empty].
Qed.

(** With a pick that throws, it throws. *)
Lemma buildValidated_member picks :
  throws picks d = true ->
  buildValidated picks (Some d) = inl (not_a_function "candidates?.find").
Proof.
  intros Hthrows. rewrite buildValidated_unfold. apply foldl_turn_member.
  unfold throws in Hthrows. apply existsb_exists in Hthrows as (k & Hin & Hk).
  apply list_elem_of_In in Hin. unfold Object_keys in Hin.
  apply list_elem_of_fmap in Hin as ([k' id] & -> & Hin).
  apply Exists_exists. by exists (k', id).
Qed.

Lemma buildValidated_cases picks :
  buildValidated picks (Some d) =
    if throws picks d then inl (not_a_function "candidates?.find")
    else inr (resolved picks d).
Proof.
  destruct (throws picks d) eqn:Hthrows;
    [by apply buildValidated_member|by apply buildValidated_plain].
Qed.

Lemma buildValidated_inr picks validated :
  buildValidated picks (Some d) = inr validated ->
  throws picks d = false /\ validated = resolved picks d.
Proof.
  rewrite buildValidated_cases. destruct (throws picks d); [done|].
  by intros [= <-].
Qed.

End Reducer.

(** [find] with the predicate [c.service_id === serviceId]. *)
Lemma find_service_id_Some (cands : list Candidate) (serviceId : Pick) c :
  List.find (fun c' => same_id (service_id c') serviceId) cands = Some c ->
  c ∈ cands /\ serviceId = Id (service_id c).
Proof.
  intros H. apply find_some in H as [Hin Heq].
  split; [by apply list_elem_of_In|].
  destruct serviceId as [value|]; [|done]. simpl in Heq.
  apply String.eqb_eq in Heq. by subst.
Qed.

Lemma find_service_id_is_Some (cands : list Candidate) (serviceId : Pick) :
  is_Some (List.find (fun c' => same_id (service_id c') serviceId) cands) <->
  exists c, c ∈ cands /\ serviceId = Id (service_id c).
Proof.
  split.
  - intros [c Hc]. exists c. by apply find_service_id_Some.
  - intros (c & Hin & ->).
    destruct (List.find _ cands) as [c'|] eqn:Hfind; [by eexists|].
    apply list_elem_of_In in Hin.
    pose proof (find_none _ _ Hfind c Hin) as Hfalse. simpl in Hfalse.
    apply String.eqb_neq in Hfalse. done.
Qed.

Lemma pickedCandidate_Some d serviceName serviceId c :
  pickedCandidate d serviceName serviceId = Some c <->
  exists cands,
    candidates d !! serviceName = Some cands /\
    List.find (fun c' => same_id (service_id c') serviceId) cands = Some c.
Proof.
  unfold pickedCandidate.
  destruct (candidates d !! serviceName) as [cands|]; simpl.
  - split; [by exists cands|]. by intros (? & [= <-] & ?).
  - split; [done|]. by intros (? & ? & ?).
Qed.

(** What [resolved] holds: exactly the names that have a pick whose id
    occurs in the catalogue's list for that name, each with the first
    candidate of that id. *)
Lemma resolved_exact (picks : gmap string Pick) (d : Decomposition) :
  (forall serviceName,
     is_Some (resolved picks d !! serviceName) <->
     exists serviceId cands,
       picks !! serviceName = Some (Id serviceId) /\
       candidates d !! serviceName = Some cands /\
       exists c, c ∈ cands /\ service_id c = serviceId) /\
  (forall serviceName c,
     resolved picks d !! serviceName = Some c <->
     exists serviceId cands,
       picks !! serviceName = Some serviceId /\
       candidates d !! serviceName = Some cands /\
       List.find (fun c' => same_id (service_id c') serviceId) cands = Some c) /\
  (forall serviceName c,
     resolved picks d !! serviceName = Some c ->
     exists cands,
       picks !! serviceName = Some (Id (service_id c)) /\
       candidates d !! serviceName = Some cands /\ c ∈ cands).
Proof.
  assert (Hexact : forall serviceName c,
    resolved picks d !! serviceName = Some c <->
    exists serviceId cands,
      picks !! serviceName = Some serviceId /\
      candidates d !! serviceName = Some cands /\
      List.find (fun c' => same_id (service_id c') serviceId) cands = Some c).
  { intros n c. rewrite resolved_lookup.
    destruct (picks !! n) as [id|]; simpl.
    - rewrite pickedCandidate_Some. split.
      + intros (cands & ? & ?). by exists id, cands.
      + intros (? & cands & [= <-] & ? & ?). by exists cands.
    - split; [done|]. by intros (? & ? & ? & _). }
  split; [|split; [exact Hexact|]].
  - intros n. split.
    + intros [c Hc]. apply Hexact in Hc as (id & cands & Hp & Hc & Hfind).
      apply find_service_id_Some in Hfind as [Hin ->].
      exists (service_id c), cands. split; [done|]. split; [done|]. by exists c.
    + intros (id & cands & Hp & Hc & c0 & Hin & Hid).
      destruct (proj2 (find_service_id_is_Some cands (Id id))) as [c Hfind].
      { exists c0. by rewrite Hid. }
      exists c. apply Hexact. by exists (Id id), cands.
  - intros n c Hc. apply Hexact in Hc as (id & cands & Hp & Hc & Hfind).
    apply find_service_id_Some in Hfind as [? ->]. by exists cands.
Qed.

(** C8 (a defect of the code).  [resolve] is specified to drop a pick that
    designates nothing.  For the picks "Camera" and "constructor" and the
    catalogue of round one, which lists no "constructor", the result
    specified is the camera alone; the loop of [handleValidation] throws
    instead, because [decomposition.candidates["constructor"]] is the
    function every object inherits and has no [find]. *)
Theorem resolve_throws_on_inherited_name :
  let picks : gmap string Pick :=
    {[ "Camera" := Id "cam-A"; "constructor" := Id "cam-A" ]} in
  candidates Scenario.round1 !! "constructor" = None /\
  resolved picks Scenario.round1 = {[ "Camera" := Scenario.candidate "cam-A" ]} /\
  js_get (candidates Scenario.round1) "constructor" = Member /\
  exists message, buildValidated picks (Some Scenario.round1) = inl message.
Proof.
  cbv zeta. split; [vm_compute; reflexivity|]. split; [vm_compute; reflexivity|].
  split; [vm_compute; reflexivity|]. eexists. vm_compute. reflexivity.
Qed.

(** ** Running a handler *)

Ltac unfold_act :=
  unfold dispatch, next, run, callback, handler,
    handleClassification, handleDecomposition, handleValidation,
    handleClarification, handleAlternatives, generateIntent, resetWorkflow,
    updateConversationState, try_finally, try_catch, post, deref, lift,
    bind, set, ret, throw.

(** Case analysis on the innermost scrutinee that blocks the computation:
    a guard, an answer of the gateway, a hook that may be [null]. *)
Ltac split_inner :=
  match goal with
  | |- context [match ?x with _ => _ end] =>
      lazymatch x with
      | context [match _ with _ => _ end] => fail
      | _ => destruct x eqn:?
      end
  end.

Ltac crunch := unfold_act; cbn; repeat (split_inner; cbn); try done.

(** Splitting a conjunction of closed facts, each then settled by
    evaluation. *)
Ltac conjs := cbv zeta; repeat match goal with |- _ /\ _ => split end.

(** The guard of [handleValidation], as a fact about the picks. *)
Lemma no_keys_empty {V} (o : gmap string V) :
  Nat.eqb (length (Object_keys o)) 0 = true <-> o = ∅.
Proof.
  unfold Object_keys, Object_entries. rewrite length_fmap, Nat.eqb_eq.
  rewrite length_zero_iff_nil. apply map_to_list_empty_iff.
Qed.

Lemma keys_of_entry {V} (o : gmap string V) k v :
  o !! k = Some v -> Nat.eqb (length (Object_keys o)) 0 = false.
Proof.
  intros Hk. apply not_true_iff_false. rewrite no_keys_empty.
  intros ->. by rewrite lookup_empty in Hk.
Qed.

Section Validation.
Variables (gw : Gateway) (cl : AppState) (d : Decomposition).
Hypothesis Hdec : decomposition cl = Some d.
Hypothesis Hpicks : Nat.eqb (length (Object_keys (selectedServices cl))) 0 = false.

Local Abbreviation w := (run (handleValidation gw) cl).
Local Abbreviation picks := (selectedServices cl).

(** A pick that throws: the exception is caught before anything is stored
    or sent. *)
Lemma validation_thrown :
  throws picks d = true ->
  sent w = [] /\
  error (hooks w) = Some (not_a_function "candidates?.find") /\
  activeStep (hooks w) = activeStep cl /\
  conversationState (hooks w) = conversationState cl /\
  validatedServices (hooks w) = validatedServices cl /\
  finalIntent (hooks w) = finalIntent cl.
Proof.
  intros Hthrows. unfold_act.
  rewrite Hpicks, Hdec, (buildValidated_member d _ Hthrows). by cbn.
Qed.

Hypothesis Hplain : throws picks d = false.

(** Past its guard and its loop, [handleValidation] stores [resolved] in
    the conversation state, together with the services of the round. *)
Lemma validation_conversation :
  conversationState (hooks w) =
    {| user_request_original := user_request_original (conversationState cl);
       services_valides := resolved picks d;
       conv_services_identifies := services_identifies d;
       historique := historique (conversationState cl) |}.
Proof.
  unfold_act. rewrite Hpicks, Hdec, (buildValidated_plain d _ Hplain).
  cbn. repeat (split_inner; cbn); done.
Qed.

Lemma validation_names :
  validatedServices (hooks w) = Object_keys (resolved picks d).
Proof.
  unfold_act. rewrite Hpicks, Hdec, (buildValidated_plain d _ Hplain).
  cbn. repeat (split_inner; cbn); done.
Qed.

(** Every service has a pick: one generate call, and its outcome decides. *)
Lemma validation_complete :
  allServicesValidated picks (services_identifies d) = true ->
  sent w = [PostGenerateIntent (validationBody cl d)] /\
  error (hooks w) =
    failure (api_generate_intent gw (validationBody cl d)) "Erreur de génération" /\
  match api_generate_intent gw (validationBody cl d) with
  | Success data => activeStep (hooks w) = 4 /\ finalIntent (hooks w) = Some data
  | _ => activeStep (hooks w) = activeStep cl /\ finalIntent (hooks w) = finalIntent cl
  end.
Proof.
  intros Hall. unfold_act.
  rewrite Hpicks, Hdec, (buildValidated_plain d _ Hplain). cbn. rewrite Hall. cbn.
  fold (validationBody cl d).
  destruct (api_generate_intent gw (validationBody cl d)); cbn; done.
Qed.

(** Some service has no pick: no call, and the clarification card. *)
Lemma validation_incomplete :
  allServicesValidated picks (services_identifies d) = false ->
  sent w = [] /\ error (hooks w) = None /\ activeStep (hooks w) = 3 /\
  finalIntent (hooks w) = finalIntent cl.
Proof.
  intros Hall. unfold_act.
  rewrite Hpicks, Hdec, (buildValidated_plain d _ Hplain). cbn. rewrite Hall. cbn. done.
Qed.

End Validation.

(** What the button "Valider la sélection" needs to fire. *)
Lemma enabled_validate st :
  enabled st (Click OpValidate) = true ->
  activeStep st = 2 /\ is_Some (decomposition st) /\ loading st = false /\
  Nat.eqb (length (Object_keys (selectedServices st))) 0 = false.
Proof.
  cbn. unfold step2. rewrite !andb_true_iff, negb_true_iff, orb_false_iff.
  rewrite Nat.eqb_eq, bool_decide_eq_true. tauto.
Qed.

Lemma session_reachable evs st : reachable st -> reachable (session evs st).
Proof.
  revert st. induction evs as [|[gw ev] evs IH]; intros st Hst; [done|].
  apply IH. by constructor.
Qed.

Lemma reachable_decomposed gw : reachable (Scenario.decomposed gw).
Proof. apply session_reachable. constructor. Qed.

Lemma reachable_camera_validated gw : reachable (Scenario.camera_validated gw).
Proof. apply session_reachable, reachable_decomposed. Qed.

Lemma reachable_clarified gw : reachable (Scenario.clarified gw).
Proof. apply session_reachable, reachable_camera_validated. Qed.

(** ** Validation *)

(** C10 (a defect of the code).  The optional chaining of
    [candidates?.find] is there so that a picked name without a catalogue
    entry is skipped.  It is not when the name is that of a member of
    [Object.prototype].  The service "constructor" is picked and validated
    in round one; the clarification answer names it as pre-validated and
    lists it no longer, so its pick is pre-filled.  The validation of round
    two then throws: an error message is shown, nothing is sent, and the
    step, the conversation state and the validated names stay as they
    were. *)
Theorem validation_throws_on_inherited_name :
  let st := Scenario.member_prefilled in
  let w := dispatch Scenario.gateway_member (Click OpValidate) st in
  reachable st /\
  enabled st (Click OpValidate) = true /\
  decomposition st = Some Scenario.round2_member /\
  selectedServices st = {[ "constructor" := Id "ctor-A" ]} /\
  candidates Scenario.round2_member !! "constructor" = None /\
  is_Some (error (hooks w)) /\
  sent w = [] /\
  activeStep (hooks w) = activeStep st /\
  conversationState (hooks w) = conversationState st /\
  validatedServices (hooks w) = validatedServices st.
Proof.
  cbv zeta. split; [apply session_reachable; constructor|].
  do 4 (split; [vm_compute; reflexivity|]).
  split; [eexists; vm_compute; reflexivity|].
  conjs; vm_compute; reflexivity.
Qed.

(** The older copy of the component throws for a name the catalogue does
    not list, whatever the name. *)
Example legacy_validation_throws :
  exists message,
    Legacy.buildValidated {[ "Camera" := Id "cam-A" ]} (Some Scenario.round2_gone)
    = inl message.
Proof. eexists. vm_compute. reflexivity. Qed.

(** C1 (amended).  [handleValidation] does not merge: past its guard it
    replaces [services_valides] by what the picks of this round resolve to
    in the catalogue of this round, whatever was validated before.  A name
    validated earlier keeps its candidate exactly when this round's picks
    hold, for that name, an id that resolves to that same candidate; an
    earlier entry without such a pick is dropped.  Picks named like a
    member of [Object.prototype] are set aside. *)
Theorem validate_replaces_selection gw st d :
  enabled st (Click OpValidate) = true ->
  decomposition st = Some d ->
  plain_names (selectedServices st) = true ->
  let before := services_valides (conversationState st) in
  let after := services_valides (conversationState (next gw (Click OpValidate) st)) in
  after = resolved (selectedServices st) d /\
  (forall serviceName,
     after !! serviceName
     = selectedServices st !! serviceName ≫= pickedCandidate d serviceName) /\
  (forall serviceName c,
     before !! serviceName = Some c ->
     (after !! serviceName = Some c <->
      exists serviceId,
        selectedServices st !! serviceName = Some serviceId /\
        pickedCandidate d serviceName serviceId = Some c)) /\
  (forall serviceName,
     selectedServices st !! serviceName = None -> after !! serviceName = None).
Proof.
  intros Hen Hdec Hplain before after.
  pose proof (enabled_validate st Hen) as (_ & _ & _ & Hkeys).
  pose proof (plain_names_throws _ d Hplain) as Hsafe.
  assert (Hafter : after = resolved (selectedServices st) d).
  { subst after. unfold next, dispatch. rewrite Hen.
    change (run (callback gw (Click OpValidate)) st)
      with (run (handleValidation gw) st).
    by rewrite (validation_conversation gw st d Hdec Hkeys Hsafe). }
  split; [exact Hafter|]. rewrite Hafter.
  split; [intros n; apply resolved_lookup|]. split.
  - intros n c _. rewrite resolved_lookup.
    destruct (selectedServices st !! n) as [id|]; simpl.
    + split; [by exists id|]. by intros (? & [= <-] & ?).
    + split; [done|]. by intros (? & ? & _).
  - intros n Hn. by rewrite resolved_lookup, Hn.
Qed.

Lemma validate_replaces_selection_witness :
  enabled Scenario.alert_picked (Click OpValidate) = true /\
  decomposition Scenario.alert_picked = Some Scenario.round2_plain /\
  plain_names (selectedServices Scenario.alert_picked) = true /\
  services_valides
    (conversationState
       (next (Scenario.gateway Scenario.round2_plain) (Click OpValidate)
          Scenario.alert_picked))
  = resolved (selectedServices Scenario.alert_picked) Scenario.round2_plain.
Proof.
  assert (Hen : enabled Scenario.alert_picked (Click OpValidate) = true)
    by (vm_compute; reflexivity).
  assert (Hdec : decomposition Scenario.alert_picked = Some Scenario.round2_plain)
    by (vm_compute; reflexivity).
  assert (Hplain : plain_names (selectedServices Scenario.alert_picked) = true)
    by (vm_compute; reflexivity).
  split; [exact Hen|]. split; [exact Hdec|]. split; [exact Hplain|].
  exact (proj1 (validate_replaces_selection
                  (Scenario.gateway Scenario.round2_plain)
                  Scenario.alert_picked Scenario.round2_plain Hen Hdec Hplain)).
Defined.

(** C1, as stated, fails.  Round one validates "Camera" with "cam-A"; the
    clarification answer names no pre-validated service, so round two
    starts without picks; the user picks "Alert" only and validates:
    "Camera" is gone from [services_valides] though it was not picked
    again. *)
Lemma merge_drops_camera :
  reachable Scenario.alert_picked /\
  enabled Scenario.alert_picked (Click OpValidate) = true /\
  services_valides (conversationState Scenario.alert_picked) !! "Camera"
    = Some (Scenario.candidate "cam-A") /\
  selectedServices Scenario.alert_picked !! "Camera" = None /\
  services_valides
    (conversationState
       (next (Scenario.gateway Scenario.round2_plain) (Click OpValidate)
          Scenario.alert_picked)) !! "Camera" = None.
Proof.
  split; [constructor; apply reachable_clarified|].
  conjs; vm_compute; reflexivity.
Qed.

(** ** The displayed names and the validated selection *)

Lemma next_in_sync gw ev st : in_sync st -> in_sync (next gw ev st).
Proof.
  unfold in_sync. intros Hst. unfold next, dispatch.
  destruct (enabled st ev); [|done].
  destruct ev as [| | | | | |[]]; crunch.
Qed.

Lemma reachable_in_sync st : reachable st -> in_sync st.
Proof.
  induction 1 as [|gw ev st _ IH]; [reflexivity|]. by apply next_in_sync.
Qed.

Lemma keys_dom {V} (o : gmap string V) :
  (list_to_set (Object_keys o) : gset string) = dom o.
Proof. unfold Object_keys, Object_entries. symmetry. apply leibniz_equiv, dom_alt. Qed.

(** C9.  In every reachable state the displayed list [validatedServices]
    is [Object.keys] of [services_valides], hence the same set of names.
    Both are empty at the start; an event other than a validation or a
    reset leaves both as they are; a validation keeps them in step (the
    state after it is reachable); a reset empties both. *)
Theorem validated_names_track_selection gw ev st :
  reachable st ->
  validatedServices st = Object_keys (services_valides (conversationState st)) /\
  (list_to_set (validatedServices st) : gset string)
    = dom (services_valides (conversationState st)) /\
  (validatedServices initialState = [] /\
   services_valides (conversationState initialState) = ∅) /\
  in_sync (next gw ev st) /\
  (ev <> Click OpValidate -> ev <> ClickReset ->
   validatedServices (next gw ev st) = validatedServices st /\
   services_valides (conversationState (next gw ev st))
     = services_valides (conversationState st)) /\
  (ev = ClickReset -> enabled st ev = true ->
   validatedServices (next gw ev st) = [] /\
   services_valides (conversationState (next gw ev st)) = ∅).
Proof.
  intros Hst. pose proof (reachable_in_sync st Hst) as Hsync.
  split; [exact Hsync|]. split; [by rewrite Hsync, keys_dom|].
  split; [done|]. split; [by apply next_in_sync|]. split.
  - intros Hv Hr. unfold next, dispatch.
    destruct (enabled st ev); [|done].
    destruct ev as [| | | | | |[]]; try done; crunch.
  - intros -> Hen. unfold next, dispatch. rewrite Hen. done.
Qed.

Lemma validated_names_track_selection_witness :
  reachable Scenario.alert_picked /\
  validatedServices Scenario.alert_picked = ["Camera"] /\
  (list_to_set (validatedServices Scenario.alert_picked) : gset string)
    = dom (services_valides (conversationState Scenario.alert_picked)) /\
  in_sync (next (Scenario.gateway Scenario.round2_plain) (Click OpValidate)
             Scenario.alert_picked).
Proof.
  assert (Hst : reachable Scenario.alert_picked)
    by (constructor; apply reachable_clarified).
  destruct (validated_names_track_selection
              (Scenario.gateway Scenario.round2_plain) (Click OpValidate)
              Scenario.alert_picked Hst) as (_ & Hdom & _ & Hnext & _).
  split; [exact Hst|]. split; [vm_compute; reflexivity|]. by split.
Defined.

(** ** Finishing with the validated services *)

Lemma keys_empty {V} : Object_keys (∅ : gmap string V) = [].
Proof. unfold Object_keys, Object_entries. by rewrite map_to_list_empty. Qed.

(** [generateIntent()] has no guard of its own: it always posts. *)
Lemma generateIntent_posts gw cl :
  sent (run (handler gw OpFinish) cl) =
    [PostGenerateIntent
       {| gen_services_valides := services_valides (conversationState cl);
          gen_services_identifies := conv_services_identifies (conversationState cl);
          gen_user_request_original := user_request_original (conversationState cl) |}].
Proof. crunch. Qed.

(** C6 (amended).  The guard of "finish with the validated services" is the
    [disabled] attribute of its button: in every reachable state whose
    validated selection is empty the click fires nothing, so no request is
    sent and no hook changes, the error message included. *)
Theorem finish_disabled_when_empty gw st :
  reachable st ->
  services_valides (conversationState st) = ∅ ->
  disabled st OpFinish = true /\
  dispatch gw (Click OpFinish) st = {| hooks := st; sent := [] |}.
Proof.
  intros Hst Hempty. pose proof (reachable_in_sync st Hst) as Hsync.
  unfold in_sync in Hsync. rewrite Hempty, keys_empty in Hsync.
  assert (Hdis : disabled st OpFinish = true).
  { cbn. rewrite Hsync. cbn. apply orb_true_r. }
  split; [exact Hdis|].
  unfold dispatch. cbn [enabled]. rewrite Hdis. cbn. by rewrite andb_false_r.
Qed.

Lemma finish_disabled_when_empty_witness :
  reachable Scenario.nothing_validated /\
  services_valides (conversationState Scenario.nothing_validated) = ∅ /\
  dispatch (Scenario.gateway Scenario.round2_moved) (Click OpFinish)
    Scenario.nothing_validated
  = {| hooks := Scenario.nothing_validated; sent := [] |}.
Proof.
  assert (Hst : reachable Scenario.nothing_validated)
    by (constructor; apply reachable_clarified).
  assert (Hempty : services_valides (conversationState Scenario.nothing_validated) = ∅)
    by (vm_compute; reflexivity).
  split; [exact Hst|]. split; [exact Hempty|].
  exact (proj2 (finish_disabled_when_empty
                  (Scenario.gateway Scenario.round2_moved)
                  Scenario.nothing_validated Hst Hempty)).
Defined.

(** C6, as stated, fails.  On the clarification card with nothing
    validated, the click on the disabled button sets no error message; and
    [generateIntent()] called all the same raises nothing: it posts the
    request and, the service answering, moves to the last step. *)
Lemma finish_raises_nothing :
  reachable Scenario.nothing_validated /\
  activeStep Scenario.nothing_validated = 3 /\
  services_valides (conversationState Scenario.nothing_validated) = ∅ /\
  error (next (Scenario.gateway Scenario.round2_moved) (Click OpFinish)
           Scenario.nothing_validated) = None /\
  (let w := run (handler (Scenario.gateway Scenario.round2_moved) OpFinish)
              Scenario.nothing_validated in
   error (hooks w) = None /\
   length (sent w) = 1 /\
   activeStep (hooks w) = 4 /\
   finalIntent (hooks w) = Some Scenario.intent).
Proof.
  split; [constructor; apply reachable_clarified|].
  conjs; vm_compute; reflexivity.
Qed.

(** ** Completeness *)

(** [selectedServices[nom]] for a name that is not inherited: truthy
    exactly for a non-empty pick. *)
Lemma picked_plain picks nom :
  inherited nom = false ->
  picked picks nom = true <->
  exists serviceId, picks !! nom = Some (Id serviceId) /\ serviceId <> "".
Proof.
  intros Hplain. unfold picked. rewrite (js_get_plain _ _ Hplain).
  destruct (picks !! nom) as [[value|]|]; simpl.
  - rewrite negb_true_iff, String.eqb_neq. split; [by exists value|].
    by intros (? & [= <-] & ?).
  - split; [done|]. by intros (? & ? & _).
  - split; [done|]. by intros (? & ? & _).
Qed.

(** For an inherited name it is truthy without a pick. *)
Lemma picked_member picks nom :
  picks !! nom = None -> inherited nom = true -> picked picks nom = true.
Proof.
  intros Hnone Hmember. unfold picked.
  by rewrite (proj2 (js_get_member picks nom) (conj Hnone Hmember)).
Qed.

Lemma allServicesValidated_true picks services :
  plain_services services = true ->
  allServicesValidated picks services = true <->
  forall service, service ∈ services ->
    exists serviceId, picks !! nom service = Some (Id serviceId) /\ serviceId <> "".
Proof.
  intros Hplain. pose proof (proj1 (plain_services_spec services) Hplain) as Hp.
  unfold allServicesValidated. rewrite forallb_forall. split.
  - intros H service Hin. apply picked_plain; [by apply Hp|].
    by apply H, list_elem_of_In.
  - intros H service Hin. apply list_elem_of_In in Hin.
    apply picked_plain; [by apply Hp|]. by apply H.
Qed.

Lemma pickedCandidate_undefined d serviceName :
  pickedCandidate d serviceName Undefined = None.
Proof.
  unfold pickedCandidate. destruct (candidates d !! serviceName) as [cands|]; [|done].
  simpl. induction cands as [|c cands IH]; [done|exact IH].
Qed.

(** C2 (amended).  The completeness check of [handleValidation] looks at
    the picks, not at the validated selection: it is true iff every service
    of the current decomposition has a non-empty pick.  It coincides with
    "every service has an entry in the validated selection" when every pick
    is non-empty and resolves in the catalogue.  When it is true, one
    generate call is made with the freshly resolved selection and the
    clarification card is not entered: the step becomes 4 if the call
    succeeds and stays where it was, with an error message, if it fails.
    When it is false nothing is sent and the step becomes 3.  Services and
    picks named like a member of [Object.prototype] are set aside. *)
Theorem completeness_reads_picks gw st d :
  enabled st (Click OpValidate) = true ->
  decomposition st = Some d ->
  plain_names (selectedServices st) = true ->
  plain_services (services_identifies d) = true ->
  let w := dispatch gw (Click OpValidate) st in
  let complete := allServicesValidated (selectedServices st) (services_identifies d) in
  (complete = true <->
   forall service, service ∈ services_identifies d ->
     exists serviceId,
       selectedServices st !! nom service = Some (Id serviceId) /\ serviceId <> "") /\
  ((forall n serviceId,
      selectedServices st !! n = Some serviceId ->
      serviceId <> Id "" /\ is_Some (pickedCandidate d n serviceId)) ->
   (complete = true <->
    forall service, service ∈ services_identifies d ->
      is_Some (services_valides (conversationState (hooks w)) !! nom service))) /\
  (complete = true ->
   sent w = [PostGenerateIntent (validationBody st d)] /\
   activeStep (hooks w) <> 3 /\
   match api_generate_intent gw (validationBody st d) with
   | Success data =>
       activeStep (hooks w) = 4 /\ finalIntent (hooks w) = Some data /\
       error (hooks w) = None
   | _ => activeStep (hooks w) = 2 /\ is_Some (error (hooks w))
   end) /\
  (complete = false -> sent w = [] /\ activeStep (hooks w) = 3).
Proof.
  intros Hen Hdec Hplain Hservices w complete.
  pose proof (enabled_validate st Hen) as (Hstep & _ & _ & Hkeys).
  pose proof (plain_names_throws _ d Hplain) as Hsafe.
  assert (Hw : w = run (handleValidation gw) st).
  { subst w. unfold dispatch. by rewrite Hen. }
  split; [by apply allServicesValidated_true|]. split; [|split].
  - intros Hres. rewrite Hw, (validation_conversation gw st d Hdec Hkeys Hsafe). cbn.
    subst complete. rewrite (allServicesValidated_true _ _ Hservices). split.
    + intros H service Hin. destruct (H service Hin) as (id & Hid & _).
      rewrite resolved_lookup, Hid. simpl. by apply (Hres (nom service)).
    + intros H service Hin. destruct (H service Hin) as [c Hc].
      rewrite resolved_lookup in Hc.
      destruct (selectedServices st !! nom service) as [[id|]|] eqn:Hid; [| |done].
      * exists id. split; [done|]. intros ->.
        by destruct (Hres (nom service) (Id "") Hid) as [? _].
      * simpl in Hc. by rewrite pickedCandidate_undefined in Hc.
  - intros Hall. rewrite Hw.
    destruct (validation_complete gw st d Hdec Hkeys Hsafe Hall) as (Hsent & Herr & Hout).
    split; [exact Hsent|].
    destruct (api_generate_intent gw (validationBody st d)) as [data|detail|msg];
      destruct Hout as [Hs Hf]; rewrite Hs, ?Hstep; cbn in Herr;
      repeat split; try done; rewrite Herr; by eexists.
  - intros Hall. rewrite Hw.
    by destruct (validation_incomplete gw st d Hdec Hkeys Hsafe Hall) as (? & _ & ? & _).
Qed.

Lemma completeness_reads_picks_witness :
  enabled (Scenario.all_picked (Scenario.gateway Scenario.round2_plain))
    (Click OpValidate) = true /\
  decomposition (Scenario.all_picked (Scenario.gateway Scenario.round2_plain))
    = Some Scenario.round1 /\
  plain_names
    (selectedServices (Scenario.all_picked (Scenario.gateway Scenario.round2_plain)))
    = true /\
  plain_services (services_identifies Scenario.round1) = true /\
  allServicesValidated
    (selectedServices (Scenario.all_picked (Scenario.gateway Scenario.round2_plain)))
    (services_identifies Scenario.round1) = true /\
  activeStep
    (next (Scenario.gateway Scenario.round2_plain) (Click OpValidate)
       (Scenario.all_picked (Scenario.gateway Scenario.round2_plain))) <> 3.
Proof.
  pose (gw := Scenario.gateway Scenario.round2_plain).
  assert (Hen : enabled (Scenario.all_picked gw) (Click OpValidate) = true)
    by (vm_compute; reflexivity).
  assert (Hdec : decomposition (Scenario.all_picked gw) = Some Scenario.round1)
    by (vm_compute; reflexivity).
  assert (Hplain : plain_names (selectedServices (Scenario.all_picked gw)) = true)
    by (vm_compute; reflexivity).
  assert (Hservices : plain_services (services_identifies Scenario.round1) = true)
    by (vm_compute; reflexivity).
  assert (Hall : allServicesValidated (selectedServices (Scenario.all_picked gw))
                   (services_identifies Scenario.round1) = true)
    by (vm_compute; reflexivity).
  split; [exact Hen|]. split; [exact Hdec|]. split; [exact Hplain|].
  split; [exact Hservices|]. split; [exact Hall|].
  destruct (completeness_reads_picks gw (Scenario.all_picked gw) Scenario.round1
              Hen Hdec Hplain Hservices) as (_ & _ & Hgo & _).
  exact (proj1 (proj2 (Hgo Hall))).
Defined.

(** C2, as stated, fails.  In round two "Camera" is the only service and
    its pick is pre-filled with "cam-A", which the new catalogue does not
    list.  The check is true and the intent is generated, yet the validated
    selection after the step has no entry for "Camera". *)
Lemma complete_without_entry :
  reachable Scenario.camera_only /\
  enabled Scenario.camera_only (Click OpValidate) = true /\
  decomposition Scenario.camera_only = Some Scenario.round2_single /\
  allServicesValidated (selectedServices Scenario.camera_only)
    (services_identifies Scenario.round2_single) = true /\
  services_valides
    (conversationState
       (next (Scenario.gateway Scenario.round2_single) (Click OpValidate)
          Scenario.camera_only)) !! "Camera" = None /\
  activeStep
    (next (Scenario.gateway Scenario.round2_single) (Click OpValidate)
       Scenario.camera_only) = 4.
Proof.
  split; [apply reachable_clarified|].
  conjs; vm_compute; reflexivity.
Qed.

(** ** Pre-selection after a clarification *)

(** One turn of the [forEach] of the pre-selection, for a name that is not
    inherited. *)
Lemma preSelect_turn valides data (acc : gmap string Pick) svcNom :
  inherited svcNom = false ->
  match js_get valides svcNom with
  | Own existingCandidate =>
      assign acc svcNom (Id (service_id existingCandidate))
  | Member => assign acc svcNom Undefined
  | Absent =>
      match js_get (candidates data) svcNom with
      | Own (first :: _) => assign acc svcNom (Id (service_id first))
      | _ => acc
      end
  end
  = match prefill valides data svcNom with
    | Some id => <[svcNom := id]> acc
    | None => acc
    end.
Proof.
  intros Hplain. rewrite !(js_get_plain _ _ Hplain).
  unfold prefill, assign. rewrite (plain_not_proto _ Hplain).
  destruct (valides !! svcNom); [done|].
  by destruct (candidates data !! svcNom) as [[|first rest]|].
Qed.

Lemma foldl_preSelect valides data names :
  plain names = true ->
  forall (acc : gmap string Pick) svc,
    foldl
      (fun preSelected svcNom =>
         match js_get valides svcNom with
         | Own existingCandidate =>
             assign preSelected svcNom (Id (service_id existingCandidate))
         | Member => assign preSelected svcNom Undefined
         | Absent =>
             match js_get (candidates data) svcNom with
             | Own (first :: _) =>
                 assign preSelected svcNom (Id (service_id first))
             | _ => preSelected
             end
         end) acc names !! svc
    = if decide (svc ∈ names)
      then match prefill valides data svc with
           | Some id => Some id
           | None => acc !! svc
           end
      else acc !! svc.
Proof.
  induction names as [|n names IH]; intros Hplain acc svc; cbn [foldl].
  - destruct (decide (svc ∈ [])) as [Hin|]; [by apply elem_of_nil in Hin|done].
  - cbn in Hplain. apply andb_true_iff in Hplain as [Hn Hplain].
    apply negb_true_iff in Hn.
    rewrite (IH Hplain), (preSelect_turn _ _ _ _ Hn). clear IH.
    assert (Hturn :
      match prefill valides data n with
      | Some id => <[n := id]> acc
      | None => acc
      end !! svc
      = if decide (svc = n)
        then match prefill valides data svc with
             | Some id => Some id
             | None => acc !! svc
             end
        else acc !! svc).
    { destruct (decide (svc = n)) as [->|Hne].
      - destruct (prefill valides data n); [by rewrite lookup_insert_eq|done].
      - destruct (prefill valides data n); [by rewrite lookup_insert_ne|done]. }
    rewrite Hturn. clear Hturn.
    destruct (decide (svc ∈ n :: names)) as [Hcons|Hcons];
      rewrite elem_of_cons in Hcons;
      destruct (decide (svc ∈ names)) as [Hin|Hnin];
      destruct (decide (svc = n)) as [Heq|Hne];
      try tauto; by destruct (prefill valides data svc).
Qed.

Lemma preSelect_lookup valides data names svc :
  plain names = true ->
  preSelect valides data names !! svc
  = if decide (svc ∈ names) then prefill valides data svc else None.
Proof.
  intros Hplain. unfold preSelect. rewrite (foldl_preSelect _ _ _ Hplain), lookup_empty.
  destruct (decide (svc ∈ names)); [|done]. by destruct (prefill valides data svc).
Qed.

(** What the button "Clarifier" needs to fire. *)
Lemma enabled_clarify st :
  enabled st (Click OpClarify) = true ->
  activeStep st = 3 /\ loading st = false /\ blank (clarificationResponse st) = false.
Proof.
  cbn. unfold step3. rewrite !andb_true_iff, negb_true_iff, orb_false_iff.
  rewrite Nat.eqb_eq. tauto.
Qed.

(** A clarification that succeeds: the new round replaces the
    decomposition, the picks are the pre-selection, the validated selection
    is kept and the validation card is shown. *)
Lemma clarification_success gw st d data :
  blank (clarificationResponse st) = false ->
  decomposition st = Some d ->
  api_clarify gw (clarifyBody st d) = Success data ->
  let st' := hooks (run (handleClarification gw) st) in
  decomposition st' = Some data /\
  selectedServices st' =
    match pre_validated_services data with
    | Some (n :: names) =>
        preSelect (services_valides (conversationState st)) data (n :: names)
    | _ => ∅
    end /\
  services_valides (conversationState st') = services_valides (conversationState st) /\
  activeStep st' = 2 /\
  loading st' = false.
Proof.
  intros Hblank Hdec Hreply. unfold_act.
  rewrite Hblank, Hdec. cbn. fold (clarifyBody st d). rewrite Hreply. cbn.
  by destruct (pre_validated_services data) as [[|]|].
Qed.

(** C3 (amended).  After a clarification that succeeds, the picks are
    empty unless the response carries a non-empty
    [pre_validated_services].  Then each named service is pre-filled with
    the id of the candidate the validated selection holds for it, whether
    or not the new catalogue still lists that candidate; a named service
    without a validated candidate is pre-filled with the first candidate of
    the new catalogue for it, if there is one; services not named have no
    pick.  Services named like a member of [Object.prototype] are set
    aside, and so is a validated selection with an entry "__proto__". *)
Theorem clarification_prefills gw st d data :
  enabled st (Click OpClarify) = true ->
  decomposition st = Some d ->
  api_clarify gw (clarifyBody st d) = Success data ->
  plain (default [] (pre_validated_services data)) = true ->
  services_valides (conversationState st) !! "__proto__" = None ->
  let picks := selectedServices (next gw (Click OpClarify) st) in
  let valides := services_valides (conversationState st) in
  match pre_validated_services data with
  | Some (n :: names) =>
      forall svcNom,
        picks !! svcNom =
          if decide (svcNom ∈ n :: names) then
            match valides !! svcNom with
            | Some existingCandidate => Some (Id (service_id existingCandidate))
            | None =>
                (fun first => Id (service_id first))
                  <$> (candidates data !! svcNom ≫= head)
            end
          else None
  | Some [] | None => picks = ∅
  end.
Proof.
  intros Hen Hdec Hreply Hplain _ picks valides.
  pose proof (enabled_clarify st Hen) as (_ & _ & Hblank).
  assert (Hpicks : picks =
    match pre_validated_services data with
    | Some (n :: names) => preSelect valides data (n :: names)
    | _ => ∅
    end).
  { subst picks valides. unfold next, dispatch. rewrite Hen.
    change (run (callback gw (Click OpClarify)) st)
      with (run (handleClarification gw) st).
    by destruct (clarification_success gw st d data Hblank Hdec Hreply)
      as (_ & -> & _). }
  rewrite Hpicks.
  destruct (pre_validated_services data) as [[|n names]|]; [done| |done].
  intros svcNom. by rewrite (preSelect_lookup _ _ _ _ Hplain).
Qed.

Lemma reachable_typed gw : reachable (Scenario.typed gw).
Proof. constructor. apply reachable_camera_validated. Qed.

Lemma clarification_prefills_witness :
  enabled (Scenario.typed (Scenario.gateway Scenario.round2_moved))
    (Click OpClarify) = true /\
  decomposition (Scenario.typed (Scenario.gateway Scenario.round2_moved))
    = Some Scenario.round1 /\
  api_clarify (Scenario.gateway Scenario.round2_moved)
    (clarifyBody (Scenario.typed (Scenario.gateway Scenario.round2_moved))
       Scenario.round1) = Success Scenario.round2_moved /\
  plain (default [] (pre_validated_services Scenario.round2_moved)) = true /\
  services_valides
    (conversationState (Scenario.typed (Scenario.gateway Scenario.round2_moved)))
    !! "__proto__" = None /\
  selectedServices
    (next (Scenario.gateway Scenario.round2_moved) (Click OpClarify)
       (Scenario.typed (Scenario.gateway Scenario.round2_moved))) !! "Alert" = None.
Proof.
  set (gw := Scenario.gateway Scenario.round2_moved).
  assert (Hen : enabled (Scenario.typed gw) (Click OpClarify) = true)
    by (vm_compute; reflexivity).
  assert (Hdec : decomposition (Scenario.typed gw) = Some Scenario.round1)
    by (vm_compute; reflexivity).
  assert (Hreply : api_clarify gw (clarifyBody (Scenario.typed gw) Scenario.round1)
                   = Success Scenario.round2_moved) by reflexivity.
  assert (Hplain : plain (default [] (pre_validated_services Scenario.round2_moved))
                   = true) by (vm_compute; reflexivity).
  assert (Hproto : services_valides (conversationState (Scenario.typed gw))
                     !! "__proto__" = None) by (vm_compute; reflexivity).
  split; [exact Hen|]. split; [exact Hdec|]. split; [exact Hreply|].
  split; [exact Hplain|]. split; [exact Hproto|].
  pose proof (clarification_prefills gw (Scenario.typed gw) Scenario.round1
                Scenario.round2_moved Hen Hdec Hreply Hplain Hproto) as Hpre.
  cbv zeta in Hpre. cbn [pre_validated_services Scenario.round2_moved] in Hpre.
  rewrite (Hpre "Alert"). vm_compute. reflexivity.
Defined.

(** C3, as stated, fails.  "Camera" was validated with "cam-A"; the
    clarification answer names it as pre-validated and lists only "cam-B"
    for it.  The candidate validated before no longer exists in the new
    catalogue, yet the pick is pre-filled with its id and not with that of
    the first candidate of the new catalogue. *)
Lemma prefill_keeps_vanished_id :
  reachable (Scenario.typed (Scenario.gateway Scenario.round2_moved)) /\
  enabled (Scenario.typed (Scenario.gateway Scenario.round2_moved))
    (Click OpClarify) = true /\
  services_valides
    (conversationState (Scenario.typed (Scenario.gateway Scenario.round2_moved)))
    !! "Camera" = Some (Scenario.candidate "cam-A") /\
  pre_validated_services Scenario.round2_moved = Some ["Camera"] /\
  candidates Scenario.round2_moved !! "Camera" = Some [Scenario.candidate "cam-B"] /\
  selectedServices
    (next (Scenario.gateway Scenario.round2_moved) (Click OpClarify)
       (Scenario.typed (Scenario.gateway Scenario.round2_moved))) !! "Camera"
  = Some (Id "cam-A").
Proof.
  split; [apply reachable_typed|].
  conjs; vm_compute; reflexivity.
Qed.

(** ** The clarification request *)

(** The card on which an enabled control sits. *)
Lemma enabled_step st ev :
  enabled st ev = true ->
  match ev with
  | ChangeUserInput _ => activeStep st = 0
  | Click OpClassify => activeStep st = 0
  | Click OpValidate => activeStep st = 2
  | Click _ => activeStep st = 3
  | _ => True
  end.
Proof.
  destruct ev as [| | | | | |[]]; cbn; try done;
    unfold step0, step2, step3; rewrite ?andb_true_iff, Nat.eqb_eq; tauto.
Qed.

Ltac legacy_unfold :=
  unfold Legacy.dispatch, Legacy.next, Legacy.run, Legacy.callback, Legacy.handler,
    Legacy.handleClassification, Legacy.handleDecomposition,
    Legacy.handleValidation, Legacy.handleClarification,
    Legacy.handleAlternatives, Legacy.generateIntent, Legacy.resetWorkflow,
    Legacy.updateConversationState, Legacy.try_finally, Legacy.try_catch,
    Legacy.post, Legacy.deref, Legacy.lift, Legacy.bind, Legacy.set,
    Legacy.ret, Legacy.throw.

Ltac legacy_crunch := legacy_unfold; cbn; repeat (split_inner; cbn); try done.

Lemma legacy_session_reachable evs st :
  Legacy.reachable st -> Legacy.reachable (Legacy.session evs st).
Proof.
  revert st. induction evs as [|[gw ev] evs IH]; intros st Hst; [done|].
  apply IH. by constructor.
Qed.

Lemma legacy_reachable_camera_picked : Legacy.reachable Cases.old_camera_picked.
Proof. constructor. apply legacy_session_reachable. constructor. Qed.

Lemma legacy_reachable_typed : Legacy.reachable Cases.old_typed.
Proof. apply legacy_session_reachable, legacy_reachable_camera_picked. Qed.

(** C7 (a defect of the older copy).  The clarification contract has six
    fields.  The component of [frontend/src/App.jsx] sends the six; the
    copy in [src/unnamed/part_000] sends four of them: after the same
    events (the request is analysed, the camera is picked and validated,
    the clarification is typed and sent) its request carries neither the
    validated selection nor the services identified in the round. *)
Theorem legacy_clarify_sends_four_fields :
  Legacy.reachable Cases.old_typed /\
  Legacy.enabled Cases.old_typed (Click OpClarify) = true /\
  Legacy.sent (Legacy.dispatch Cases.old (Click OpClarify) Cases.old_typed)
  = [Legacy.PostClarify
       {| Legacy.user_clarification := "SMS only";
          Legacy.services_valides_noms := ["Camera"];
          Legacy.services_refuses := ["Alert"];
          Legacy.original_request := Scenario.request |}] /\
  Cases.old_typed = Scenario.typed Cases.gw /\
  sent (dispatch Cases.gw (Click OpClarify) (Scenario.typed Cases.gw))
  = [PostClarify
       {| user_clarification := "SMS only";
          services_valides_noms := ["Camera"];
          services_refuses := ["Alert"];
          original_request := Scenario.request;
          services_valides_data := {[ "Camera" := Scenario.candidate "cam-A" ]};
          services_identifies_precedents := services_identifies Scenario.round1 |}].
Proof.
  split; [apply legacy_reachable_typed|].
  conjs; vm_compute; reflexivity.
Qed.

(** ** Errors *)





(** ** The history *)

(** C5 (amended).  The history grows by one line for each decomposition
    and each clarification the gateway answers with success, and by nothing
    else: a classification, a request for alternatives and a generation
    leave it as it is, and so does a call that fails.  No event but a reset
    removes a line: the history after is the history before followed by
    the new lines. *)
Theorem history_appends gw ev st :
  (ev <> ClickReset ->
   historique (conversationState (next gw ev st))
   = (historique (conversationState st)
      ++ omap (journal gw) (sent (dispatch gw ev st)))%list) /\
  (ev <> ClickReset ->
   exists lines,
     historique (conversationState (next gw ev st))
     = (historique (conversationState st) ++ lines)%list) /\
  (ev = ClickReset ->
   sent (dispatch gw ev st) = [] /\
   (enabled st ev = true -> historique (conversationState (next gw ev st)) = [])).
Proof.
  assert (Happ : ev <> ClickReset ->
    historique (conversationState (next gw ev st))
    = (historique (conversationState st)
       ++ omap (journal gw) (sent (dispatch gw ev st)))%list).
  { intros Hev. unfold next, dispatch.
    destruct (enabled st ev); [|by rewrite app_nil_r].
    destruct ev as [| | | | | |[]]; try done; crunch; by rewrite ?app_nil_r. }
  split; [exact Happ|]. split.
  - intros Hev. rewrite (Happ Hev). by eexists.
  - intros ->. unfold next, dispatch. by destruct (enabled st ClickReset).
Qed.

(** C5, as stated, fails.  On the clarification card the user asks for
    alternatives: the request is sent and answered, and the history is the
    one before. *)
Lemma alternatives_leave_history :
  let st := Scenario.camera_validated (Scenario.gateway Scenario.round2_plain) in
  let w := dispatch (Scenario.gateway Scenario.round2_plain) (Click OpAlternatives) st in
  reachable st /\
  enabled st (Click OpAlternatives) = true /\
  sent w =
    [PostAlternatives
       {| alt_services_refuses := ["Alert"];
          alt_services_valides := ["Camera"];
          alt_historique := ["Demande: " +:+ Scenario.request] |}] /\
  alternatives (hooks w) = ["Siren"] /\
  error (hooks w) = None /\
  historique (conversationState (hooks w)) = historique (conversationState st).
Proof.
  split; [apply reachable_camera_validated|].
  conjs; vm_compute; reflexivity.
Qed.

(** ** A selection carried over a clarification round *)

Lemma preSelect_keys valides data names svc :
  plain names = true ->
  is_Some (preSelect valides data names !! svc) -> svc ∈ names.
Proof.
  intros Hplain. rewrite (preSelect_lookup _ _ _ _ Hplain).
  destruct (decide (svc ∈ names)); [done|]. by intros [? ?].
Qed.

(** What does hold across a round.  A service validated with [c] that the
    clarification answer names as pre-validated, and for which the new
    catalogue still resolves the id of [c] to [c], is validated with [c]
    again by the next validation, provided its pick is left as
    pre-filled: here the validation follows the clarification directly.
    The services named are not named like a member of
    [Object.prototype]. *)
Lemma prefilled_selection_survives gw gw' st d data names n c :
  enabled st (Click OpClarify) = true ->
  decomposition st = Some d ->
  api_clarify gw (clarifyBody st d) = Success data ->
  pre_validated_services data = Some names ->
  plain names = true ->
  n ∈ names ->
  services_valides (conversationState st) !! n = Some c ->
  pickedCandidate data n (Id (service_id c)) = Some c ->
  let st1 := next gw (Click OpClarify) st in
  enabled st1 (Click OpValidate) = true /\
  services_valides (conversationState (next gw' (Click OpValidate) st1)) !! n = Some c.
Proof.
  intros Hen Hdec Hreply Hnames Hplain Hin Hc Hres st1.
  pose proof (enabled_clarify st Hen) as (_ & _ & Hblank).
  assert (Hst1 : st1 = hooks (run (handleClarification gw) st)).
  { subst st1. unfold next, dispatch. by rewrite Hen. }
  destruct (clarification_success gw st d data Hblank Hdec Hreply)
    as (Hdec1 & Hpicks1 & _ & Hstep1 & Hload1).
  rewrite <- Hst1 in Hdec1, Hpicks1, Hstep1, Hload1.
  rewrite Hnames in Hpicks1.
  destruct names as [|n0 names]; [by apply elem_of_nil in Hin|].
  assert (Hpick : selectedServices st1 !! n = Some (Id (service_id c))).
  { rewrite Hpicks1, (preSelect_lookup _ _ _ _ Hplain), decide_True by done.
    unfold prefill. by rewrite Hc. }
  pose proof (keys_of_entry _ _ _ Hpick) as Hkeys.
  assert (Hsafe : throws (selectedServices st1) data = false).
  { apply plain_names_throws, plain_names_spec. intros key Hkey.
    rewrite Hpicks1 in Hkey. apply (preSelect_keys _ _ _ _ Hplain) in Hkey.
    by apply (proj1 (plain_spec _) Hplain). }
  assert (Hen1 : enabled st1 (Click OpValidate) = true).
  { cbn. unfold step2. by rewrite Hstep1, Hdec1, Hload1, Hkeys. }
  split; [exact Hen1|].
  unfold next at 1, dispatch. rewrite Hen1.
  change (run (callback gw' (Click OpValidate)) st1)
    with (run (handleValidation gw') st1).
  rewrite (validation_conversation gw' st1 data Hdec1 Hkeys Hsafe). cbn.
  by rewrite resolved_lookup, Hpick.
Qed.

(** The scenario of the specification: of "Camera" and "Alert" only the
    camera is picked; the validation shows the clarification card with the
    camera as the validated selection. *)
Example camera_validated_state :
  activeStep (Scenario.camera_validated (Scenario.gateway Scenario.round2_plain)) = 3 /\
  services_valides
    (conversationState
       (Scenario.camera_validated (Scenario.gateway Scenario.round2_plain)))
  = {[ "Camera" := Scenario.candidate "cam-A" ]}.
Proof. conjs; vm_compute; reflexivity. Qed.

(** The scenario of the specification: a greeting is classified, shown on
    the second card, and no decomposition is requested. *)
Example greeting_is_not_decomposed :
  let w := dispatch Scenario.gateway_greeting (Click OpClassify)
             (next Scenario.gateway_greeting (ChangeUserInput "Hello") initialState) in
  sent w = [PostClassify "Hello"] /\
  activeStep (hooks w) = 1 /\
  historique (conversationState (hooks w)) = [].
Proof. conjs; vm_compute; reflexivity. Qed.

(** * Further properties *)

Lemma enabled_card st ev :
  enabled st ev = true ->
  match ev with
  | ChangeUserInput _ | Click OpClassify => activeStep st = 0
  | ChangeRadio _ _ | Click OpValidate => activeStep st = 2
  | ChangeClarification _ | Click _ => activeStep st = 3
  | ClickDownload => activeStep st = 4
  | ClickReset => activeStep st = 1 \/ activeStep st = 2 \/ activeStep st = 4
  | CloseError => True
  end.
Proof.
  destruct ev as [| | | | | |[]]; cbn; try done;
    unfold step0, step1, step2, step3, step4;
    rewrite ?orb_true_iff, ?andb_true_iff, ?Nat.eqb_eq; tauto.
Qed.

Lemma next_idle gw ev st : idle st -> idle (next gw ev st).
Proof.
  intros [Hl Hlab]. unfold idle, next, dispatch.
  destruct (enabled st ev); [|done].
  destruct ev as [| | | | | |[]]; crunch.
Qed.

Lemma next_shaped gw ev st : shaped st -> shaped (next gw ev st).
Proof.
  intros Hinv. unfold next, dispatch.
  destruct (enabled st ev) eqn:Hen; [|exact Hinv].
  pose proof (enabled_card st ev Hen) as Hstep.
  assert (Hnb : ev = Click OpClassify -> blank (userInput st) = false).
  { intros ->. revert Hen. cbn. rewrite andb_true_iff, negb_true_iff, orb_false_iff. tauto. }
  unfold shaped in *.
  destruct ev as [| | | | | |[]]; cbn in Hstep.
  - rewrite Hstep in Hinv. unfold pristine in *. crunch; rewrite ?Hstep; intuition (try congruence; eauto).
  - rewrite Hstep in Hinv. unfold pristine in *. crunch; rewrite ?Hstep; intuition (try congruence; eauto).
  - rewrite Hstep in Hinv. unfold pristine in *. crunch; rewrite ?Hstep; intuition (try congruence; eauto).
  - crunch.
  - exact Hinv.
  - crunch.
  - rewrite Hstep in Hinv. specialize (Hnb eq_refl). unfold pristine, classified in *. crunch; rewrite ?Hstep; intuition (try congruence; eauto).
  - rewrite Hstep in Hinv. unfold pristine, classified in *.
    destruct Hinv as (Hf & [d Hd] & Hc & Hb).
    unfold_act. rewrite Hd. cbn. repeat (split_inner; cbn); rewrite ?Hstep; intuition (try congruence; eauto).
  - rewrite Hstep in Hinv. unfold pristine, classified in *.
    destruct Hinv as (Hf & [d Hd] & Hc & Hb).
    unfold_act. rewrite Hd. cbn. repeat (split_inner; cbn); rewrite ?Hstep; intuition (try congruence; eauto).
  - rewrite Hstep in Hinv. unfold pristine, classified in *.
    destruct Hinv as (Hf & [d Hd] & Hc & Hb).
    unfold_act. rewrite Hd. cbn. repeat (split_inner; cbn); rewrite ?Hstep; intuition (try congruence; eauto).
  - rewrite Hstep in Hinv. unfold pristine, classified in *.
    destruct Hinv as (Hf & [d Hd] & Hc & Hb).
    unfold_act. cbn. repeat (split_inner; cbn); rewrite ?Hstep; intuition (try congruence; eauto).
Qed.

Lemma reachable_idle st : reachable st -> idle st.
Proof. induction 1 as [|gw ev st _ IH]; [done|]. by apply next_idle. Qed.

Lemma reachable_shaped st : reachable st -> shaped st.
Proof.
  induction 1 as [|gw ev st _ IH]; [|by apply next_shaped].
  unfold shaped, pristine. cbn. done.
Qed.


Lemma enabled_operation st op :
  enabled st (Click op) = true ->
  loading st = false /\
  match op with
  | OpClassify => blank (userInput st) = false
  | OpValidate => Nat.eqb (length (Object_keys (selectedServices st))) 0 = false
  | OpClarify => blank (clarificationResponse st) = false
  | OpAlternatives => True
  | OpFinish => Nat.eqb (length (validatedServices st)) 0 = false
  end.
Proof.
  destruct op; cbn; rewrite ?andb_true_iff, ?negb_true_iff, ?orb_false_iff; tauto.
Qed.

(** X2.  A handler whose guard lets it run ends, on every path (success,
    failed call, caught exception), with the busy flag down and its label
    empty.  A handler whose guard refuses sends nothing, shows a message
    and leaves the flag and the label as they were; its button is disabled
    in that case, so the guards do not fire from the interface. *)
Theorem handlers_release_busy_flag gw op cl :
  let w := run (handler gw op) cl in
  (refuses cl op = false ->
   loading (hooks w) = false /\ loadingLabel (hooks w) = "") /\
  (refuses cl op = true ->
   sent w = [] /\ is_Some (error (hooks w)) /\
   loading (hooks w) = loading cl /\ loadingLabel (hooks w) = loadingLabel cl /\
   disabled cl op = true /\ enabled cl (Click op) = false).
Proof.
  cbv zeta. split; intros Hguard.
  - destruct op; cbn in Hguard; unfold_act; rewrite ?Hguard; cbn;
      repeat (split_inner; cbn); done.
  - destruct op; cbn in Hguard; try done; unfold_act; cbn; rewrite !Hguard; cbn;
      rewrite ?orb_true_r, ?andb_false_r; repeat split; by eexists.
Qed.

(** X3.  An enabled event, handled to completion, leaves the step index
    where it was when the event fired or moves it along one of the edges 0
    to 1, 0 to 2, 2 to 3, 2 to 4, 3 to 2, 3 to 4, or from 1, 2 or 4 back to
    0; the index never leaves the range of the five cards. *)
Theorem steps_follow_graph gw ev st :
  activeStep st <= 4 ->
  allowed (activeStep st) (activeStep (next gw ev st)) = true /\
  activeStep (next gw ev st) <= 4.
Proof.
  intros Hle.
  assert (Hallowed : allowed (activeStep st) (activeStep (next gw ev st)) = true).
  { unfold next, dispatch.
    destruct (enabled st ev) eqn:Hen.
    2:{ cbn. destruct (activeStep st) as [|[|[|[|[|n]]]]]; lia || done. }
    pose proof (enabled_card st ev Hen) as Hstep.
    destruct ev as [| | | | | |[]]; cbn in Hstep; crunch; rewrite ?Hstep; try done.
    all: destruct (activeStep st) as [|[|[|[|[|n]]]]]; lia || done. }
  split; [exact Hallowed|].
  destruct (activeStep st) as [|[|[|[|[|n]]]]];
    destruct (activeStep (next gw ev st)) as [|[|[|[|[|m]]]]]; (lia || done).
Qed.

(** X4.  A reset sends nothing and puts every hook back to its initial
    value but the busy flag, which it leaves as it is: the state after a
    reset is the initial state exactly when no call was pending. *)
Theorem reset_restores_all_but_busy_flag gw st :
  enabled st ClickReset = true ->
  dispatch gw ClickReset st
    = {| hooks := setLoading (loading st) initialState; sent := [] |} /\
  (next gw ClickReset st = initialState <-> loading st = false).
Proof.
  intros Hen.
  assert (Hreset : dispatch gw ClickReset st
                   = {| hooks := setLoading (loading st) initialState; sent := [] |}).
  { unfold dispatch. rewrite Hen. reflexivity. }
  split; [exact Hreset|]. unfold next. rewrite Hreset. cbn. split.
  - intros Heq. by apply (f_equal loading) in Heq.
  - by intros ->.
Qed.

(** X5.  The card of a non-telecom classification and the card of the
    generated intent are left by a reset only: any other event sends
    nothing and changes nothing, but for closing the error message. *)
Theorem terminal_cards_only_reset gw ev st :
  activeStep st = 1 \/ activeStep st = 4 ->
  ev <> ClickReset ->
  sent (dispatch gw ev st) = [] /\
  (next gw ev st = st \/ ev = CloseError /\ next gw ev st = setError None st).
Proof.
  intros Hstep Hev. unfold next, dispatch.
  destruct ev as [| | | | | |[]]; try done; cbn;
    unfold step0, step2, step3, step4;
    destruct Hstep as [Hs | Hs]; rewrite ?Hs; cbn; auto.
  all: try (destruct (truthy (error st)); cbn; auto).
  all: try (destruct (bool_decide (is_Some (finalIntent st))); cbn; auto).
Qed.

(** X6.  A handler that ends with an error leaves what the user entered
    and received so far as it was: the request text, the clarification
    text, the picks, the decomposition, the alternatives and the intent. *)
Theorem errors_preserve_inputs gw op cl msg :
  error (hooks (run (handler gw op) cl)) = Some msg ->
  userInput (hooks (run (handler gw op) cl)) = userInput cl /\
  clarificationResponse (hooks (run (handler gw op) cl)) = clarificationResponse cl /\
  selectedServices (hooks (run (handler gw op) cl)) = selectedServices cl /\
  decomposition (hooks (run (handler gw op) cl)) = decomposition cl /\
  alternatives (hooks (run (handler gw op) cl)) = alternatives cl /\
  finalIntent (hooks (run (handler gw op) cl)) = finalIntent cl.
Proof.
  destruct op; crunch.
Qed.

(** X7.  After a click on an enabled button in a reachable state, the
    error message is the failure of the last request sent, if it failed,
    and is empty otherwise, and every request before the last one
    succeeded; the one exception is a validation whose loop throws, which
    sends nothing and shows the message of the exception.  Hence the
    messages of the local guards and the [TypeError] of a [null]
    decomposition are never shown. *)
Theorem shown_error_is_gateway_failure gw op st :
  reachable st ->
  enabled st (Click op) = true ->
  let w := dispatch gw (Click op) st in
  omap (reply_failure gw) (removelast (sent w)) = [] /\
  (error (hooks w) = last (sent w) ≫= reply_failure gw \/
   op = OpValidate /\ sent w = [] /\ is_Some (error (hooks w)) /\
   exists d, decomposition st = Some d /\ throws (selectedServices st) d = true).
Proof.
  intros Hst Hen. cbv zeta.
  pose proof (enabled_card st _ Hen) as Hstep.
  pose proof (enabled_operation st op Hen) as [_ Hpre].
  pose proof (reachable_shaped st Hst) as Hsh. unfold shaped in Hsh.
  unfold dispatch. rewrite Hen.
  destruct op; cbn in Hstep, Hpre; rewrite Hstep in Hsh.
  - unfold_act. rewrite Hpre. cbn.
    repeat (unfold failure; split_inner; cbn); split; try done; left; by simplify_eq.
  - destruct Hsh as (_ & [d Hd] & _).
    change (run (callback gw (Click OpValidate)) st)
      with (run (handleValidation gw) st).
    destruct (throws (selectedServices st) d) eqn:Hthrows.
    + destruct (validation_thrown gw st d Hd Hpre Hthrows) as (-> & -> & _).
      split; [done|]. right. repeat split; try done; by eexists.
    + destruct (allServicesValidated (selectedServices st) (services_identifies d))
        eqn:Hall.
      * destruct (validation_complete gw st d Hd Hpre Hthrows Hall) as (-> & -> & _).
        split; [done|]. by left.
      * destruct (validation_incomplete gw st d Hd Hpre Hthrows Hall)
          as (-> & -> & _).
        split; [done|]. by left.
  - destruct Hsh as (_ & [d Hd] & _).
    unfold_act. rewrite Hpre, Hd. cbn.
    repeat (unfold failure; split_inner; cbn); split; try done; left; by simplify_eq.
  - destruct Hsh as (_ & [d Hd] & _).
    unfold_act. rewrite Hd. cbn.
    repeat (unfold failure; split_inner; cbn); split; try done; left; by simplify_eq.
  - unfold_act. cbn.
    repeat (unfold failure; split_inner; cbn); split; try done; left; by simplify_eq.
Qed.

Lemma shaped_fresh st : shaped st -> activeStep st < 2 -> pristine st.
Proof.
  unfold shaped. destruct (activeStep st) as [|[|n]]; [done| |lia].
  by intros (? & _).
Qed.

(** X8.  A request classified as anything but TELECOM is not decomposed:
    the classification is the only request sent, it is stored, the second
    card is shown, and the conversation state stays empty. *)
Theorem non_telecom_is_not_decomposed gw st c :
  reachable st ->
  enabled st (Click OpClassify) = true ->
  api_classify gw (userInput st) = Success c ->
  String.eqb (type c) "TELECOM" = false ->
  sent (dispatch gw (Click OpClassify) st) = [PostClassify (userInput st)] /\
  next gw (Click OpClassify) st
    = setActiveStep 1 (setClassification (Some c) (setError None st)) /\
  conversationState (next gw (Click OpClassify) st) = emptyConversation /\
  decomposition (next gw (Click OpClassify) st) = None.
Proof.
  intros Hst Hen Hreply Htype.
  pose proof (enabled_card st _ Hen) as Hstep. cbn in Hstep.
  pose proof (enabled_operation st _ Hen) as [Hl Hpre]. cbn in Hpre.
  destruct (reachable_idle st Hst) as [_ Hlab].
  destruct (shaped_fresh st (reachable_shaped st Hst)) as (Hcs & Hd & _); [lia|].
  unfold next, dispatch. rewrite Hen. unfold_act.
  rewrite Hpre, Hreply. cbn. rewrite Htype. cbn.
  split; [done|]. split; [|by split].
  destruct st. cbn in *. by subst.
Qed.

(** X9.  A request classified as TELECOM is decomposed in the same click,
    with the same text.  If the decomposition succeeds the validation card
    opens on it, with a conversation state that records the text, the
    services identified and the single history line of the request, and no
    pick; if it fails the first card stays, with the failure as message and
    the conversation state still empty. *)
Theorem telecom_request_opens_round gw st c :
  reachable st ->
  enabled st (Click OpClassify) = true ->
  api_classify gw (userInput st) = Success c ->
  String.eqb (type c) "TELECOM" = true ->
  let w := dispatch gw (Click OpClassify) st in
  sent w = [PostClassify (userInput st); PostDecompose (userInput st)] /\
  classification (hooks w) = Some c /\
  match api_decompose gw (userInput st) with
  | Success data =>
      activeStep (hooks w) = 2 /\
      decomposition (hooks w) = Some data /\
      conversationState (hooks w) =
        {| user_request_original := userInput st;
           services_valides := ∅;
           conv_services_identifies := services_identifies data;
           historique := ["Demande: " +:+ userInput st] |} /\
      selectedServices (hooks w) = ∅ /\
      error (hooks w) = None
  | reply =>
      activeStep (hooks w) = 0 /\
      decomposition (hooks w) = None /\
      conversationState (hooks w) = emptyConversation /\
      error (hooks w) = failure reply "Erreur de décomposition"
  end.
Proof.
  intros Hst Hen Hreply Htype w. subst w.
  pose proof (enabled_card st _ Hen) as Hstep. cbn in Hstep.
  pose proof (enabled_operation st _ Hen) as [Hl Hpre]. cbn in Hpre.
  destruct (shaped_fresh st (reachable_shaped st Hst))
    as (Hcs & Hd & Hsel & _); [lia|].
  unfold dispatch. rewrite Hen. unfold_act.
  rewrite Hpre, Hreply. cbn. rewrite Htype. cbn.
  destruct (api_decompose gw (userInput st)); cbn; rewrite ?Hcs; done.
Qed.

(** X10.  Asking for alternatives is informational: it leaves the step,
    the conversation state, the decomposition, the picks, the validated
    names, the clarification text and the intent as they are; and asking
    again, the gateway answering alike, changes nothing more. *)
Theorem alternatives_only_inform gw st :
  let st' := next gw (Click OpAlternatives) st in
  (activeStep st' = activeStep st /\
   conversationState st' = conversationState st /\
   decomposition st' = decomposition st /\
   selectedServices st' = selectedServices st /\
   validatedServices st' = validatedServices st /\
   clarificationResponse st' = clarificationResponse st /\
   finalIntent st' = finalIntent st) /\
  next gw (Click OpAlternatives) st' = st'.
Proof.
  cbv zeta. unfold next, dispatch.
  destruct (enabled st (Click OpAlternatives)) eqn:Hen;
    [|cbn [hooks]; by rewrite Hen].
  pose proof (enabled_card st _ Hen) as Hstep. cbn in Hstep.
  pose proof (enabled_operation st _ Hen) as [Hl _].
  split; [crunch|].
  unfold_act.
  destruct (decomposition st) as [d|] eqn:Hd; cbn.
  - destruct (api_alternatives gw _) as [data|detail|msg] eqn:Hr; cbn;
      unfold step3; cbn; rewrite Hstep; cbn; rewrite Hd; cbn; rewrite Hr; by cbn.
  - unfold step3. cbn. rewrite Hstep. cbn. rewrite Hd. by cbn.
Qed.

(** X11.  A pick cannot be withdrawn: but for a reset and a
    clarification, every event leaves a picked service picked, and only a
    radio button changes the picks at all. *)
Theorem picks_are_never_withdrawn gw ev st :
  ev <> ClickReset ->
  ev <> Click OpClarify ->
  (forall n, is_Some (selectedServices st !! n) ->
             is_Some (selectedServices (next gw ev st) !! n)) /\
  ((forall n v, ev <> ChangeRadio n v) ->
   selectedServices (next gw ev st) = selectedServices st).
Proof.
  intros Hr Hc. unfold next, dispatch.
  destruct (enabled st ev); [|done].
  destruct ev as [| n v | | | | |[]]; try done; crunch.
  split; [|by intros H; destruct (H n v)].
  intros m Hm. destruct (decide (n = m)) as [->|Hne].
  - rewrite lookup_insert_eq. by eexists.
  - by rewrite lookup_insert_ne.
Qed.

Lemma refused_nil_iff picks services :
  refusedServices picks services = [] <->
  allServicesValidated picks services = true.
Proof.
  unfold refusedServices, allServicesValidated.
  induction services as [|s services IH]; [done|]. cbn.
  destruct (picked picks (nom s)); cbn; [exact IH|]. split; done.
Qed.

Lemma elem_of_refused picks services n :
  n ∈ refusedServices picks services <->
  exists s, s ∈ services /\ nom s = n /\ picked picks n = false.
Proof.
  unfold refusedServices. rewrite list_elem_of_fmap. split.
  - intros (s & -> & Hin). apply list_elem_of_In, filter_In in Hin as [Hin Hf].
    exists s. split; [by apply list_elem_of_In|]. split; [done|].
    by apply negb_true_iff.
  - intros (s & Hin & <- & Hf). exists s. split; [done|].
    apply list_elem_of_In, filter_In. split; [by apply list_elem_of_In|].
    by apply negb_true_iff.
Qed.

(** X12.  A validation shows the clarification card exactly when its loop
    does not throw and the list of refused services is not empty.  The
    picks and the decomposition are those before the validation, so the
    card lists that same list.  A name is on it iff it is an identified
    service for which [selectedServices[nom]] is falsy: a service without
    a pick is refused, unless it is named like a member of
    [Object.prototype]. *)
Theorem clarification_card_lists_a_refusal gw st d :
  enabled st (Click OpValidate) = true ->
  decomposition st = Some d ->
  let st' := next gw (Click OpValidate) st in
  let refused := refusedServices (selectedServices st) (services_identifies d) in
  (activeStep st' = 3 <->
   throws (selectedServices st) d = false /\ refused <> []) /\
  decomposition st' = Some d /\
  selectedServices st' = selectedServices st /\
  (forall n,
     n ∈ refused <->
     exists s, s ∈ services_identifies d /\ nom s = n /\
               picked (selectedServices st) n = false) /\
  (forall n,
     selectedServices st !! n = None ->
     picked (selectedServices st) n = inherited n).
Proof.
  intros Hen Hdec st' refused.
  pose proof (enabled_validate st Hen) as (Hstep & _ & _ & Hkeys).
  assert (Hst' : st' = hooks (run (handleValidation gw) st)).
  { subst st'. unfold next, dispatch. by rewrite Hen. }
  split; [|split; [|split; [|split]]].
  - subst refused. rewrite refused_nil_iff, Hst'.
    destruct (throws (selectedServices st) d) eqn:Hthrows.
    { destruct (validation_thrown gw st d Hdec Hkeys Hthrows) as (_ & _ & -> & _).
      rewrite Hstep. split; [done|]. by intros [? _]. }
    destruct (allServicesValidated _ _) eqn:Hall.
    + destruct (validation_complete gw st d Hdec Hkeys Hthrows Hall) as (_ & _ & Hout).
      split; [|by intros [_ ?]]. intros H3.
      destruct (api_generate_intent gw _); destruct Hout as [Hs _]; lia.
    + by destruct (validation_incomplete gw st d Hdec Hkeys Hthrows Hall)
        as (_ & _ & -> & _).
  - rewrite Hst'. unfold_act. rewrite Hkeys, Hdec. cbn.
    repeat (split_inner; cbn); done.
  - rewrite Hst'. unfold_act. rewrite Hkeys, Hdec. cbn.
    repeat (split_inner; cbn); done.
  - intros n. apply elem_of_refused.
  - intros n Hn. unfold picked, js_get. rewrite Hn. by destruct (inherited n).
Qed.

(** X14.  On the first two cards nothing of a negotiation is held: the
    conversation state is empty and there is no decomposition, pick,
    validated name, alternative or clarification text.  An intent is held
    exactly on the last card. *)
Theorem nothing_recorded_before_a_round st :
  reachable st ->
  (activeStep st < 2 ->
   conversationState st = emptyConversation /\
   decomposition st = None /\
   selectedServices st = ∅ /\
   validatedServices st = [] /\
   alternatives st = [] /\
   clarificationResponse st = "") /\
  (is_Some (finalIntent st) <-> activeStep st = 4).
Proof.
  intros Hst. pose proof (reachable_shaped st Hst) as Hsh. split.
  - intros Hlt. destruct (shaped_fresh st Hsh Hlt) as (?&?&?&?&?&?&?). done.
  - unfold shaped, pristine in Hsh.
    destruct (activeStep st) as [|[|[|[|[|n]]]]]; try done.
    + destruct Hsh as (_&_&_&_&_&_&->). split; [by intros [? ?]|done].
    + destruct Hsh as ((_&_&_&_&_&_&->)&_). split; [by intros [? ?]|done].
    + destruct Hsh as (-> & _). split; [by intros [? ?]|done].
    + destruct Hsh as (-> & _). split; [by intros [? ?]|done].
    + by destruct Hsh as (? & _).
Qed.

(** X15.  When "finish with the validated services" can be clicked in a
    reachable state, the validated selection is not empty, and the request
    carries what the conversation state records: that selection, the
    services identified and the original request.  The conversation state
    is not modified; the last card opens if the call succeeds, the
    clarification card stays with the failure as message if it does not. *)
Theorem finish_sends_validated_selection gw st :
  reachable st ->
  enabled st (Click OpFinish) = true ->
  services_valides (conversationState st) <> ∅ /\
  let body :=
    {| gen_services_valides := services_valides (conversationState st);
       gen_services_identifies := conv_services_identifies (conversationState st);
       gen_user_request_original := user_request_original (conversationState st) |} in
  let w := dispatch gw (Click OpFinish) st in
  sent w = [PostGenerateIntent body] /\
  conversationState (hooks w) = conversationState st /\
  match api_generate_intent gw body with
  | Success data =>
      activeStep (hooks w) = 4 /\ finalIntent (hooks w) = Some data /\
      error (hooks w) = None
  | reply =>
      activeStep (hooks w) = 3 /\ finalIntent (hooks w) = finalIntent st /\
      error (hooks w) = failure reply "Erreur de génération"
  end.
Proof.
  intros Hst Hen.
  pose proof (enabled_card st _ Hen) as Hstep. cbn in Hstep.
  pose proof (enabled_operation st _ Hen) as [_ Hpre]. cbn in Hpre.
  split.
  { intros Hempty. rewrite (reachable_in_sync st Hst), Hempty, keys_empty in Hpre.
    done. }
  cbv zeta. unfold dispatch. rewrite Hen. unfold_act. cbn.
  destruct (api_generate_intent gw _); cbn; by rewrite ?Hstep.
Qed.

Lemma radio_rendered_resolves st d n id :
  decomposition st = Some d ->
  radio_rendered st n id = true ->
  exists cands c,
    candidates d !! n = Some cands /\ c ∈ cands /\ service_id c = id /\
    pickedCandidate d n (Id id) = Some c.
Proof.
  intros Hd. unfold radio_rendered. rewrite Hd, andb_true_iff.
  intros [_ Hex]. unfold pickedCandidate, js_get in *.
  destruct (candidates d !! n) as [cands|]; cbn in *;
    [|by destruct (inherited n)].
  apply existsb_exists in Hex as (c0 & Hin & Heq).
  destruct (proj2 (find_service_id_is_Some cands (Id id))) as [c Hc].
  { exists c0. split; [by apply list_elem_of_In|].
    apply String.eqb_eq in Heq. by rewrite Heq. }
  destruct (find_service_id_Some _ _ _ Hc) as [? [= ->]].
  by exists cands, c.
Qed.

(** X16.  A pick made with a radio button leaves the validation button
    disabled only while a call is pending; and when no pick makes its loop
    throw, the validation stores for that service a candidate of the
    catalogue's list for it, the one with the picked id.  The service is
    not named like a member of [Object.prototype]. *)
Theorem radio_pick_is_validated gw gw' st d n id :
  enabled st (ChangeRadio n id) = true ->
  decomposition st = Some d ->
  inherited n = false ->
  throws (selectedServices st) d = false ->
  let st1 := next gw (ChangeRadio n id) st in
  selectedServices st1 = <[n := Id id]> (selectedServices st) /\
  disabled st1 OpValidate = loading st /\
  exists cands c,
    candidates d !! n = Some cands /\ c ∈ cands /\ service_id c = id /\
    services_valides (conversationState (hooks (run (handler gw' OpValidate) st1))) !! n
      = Some c.
Proof.
  intros Hen Hd Hplain Hsafe st1.
  assert (Hst1 : st1 = setSelectedServices (<[n := Id id]> (selectedServices st)) st).
  { subst st1. unfold next, dispatch. by rewrite Hen. }
  assert (Hpick : selectedServices st1 !! n = Some (Id id)).
  { rewrite Hst1. cbn. apply lookup_insert_eq. }
  pose proof (keys_of_entry _ _ _ Hpick) as Hkeys.
  cbn in Hen. apply andb_true_iff in Hen as [H2 Hradio].
  assert (Hd1 : decomposition st1 = Some d) by by rewrite Hst1.
  split; [by rewrite Hst1|]. split.
  { cbn. rewrite Hkeys, Hst1. cbn. apply orb_false_r. }
  destruct (radio_rendered_resolves st d n id Hd Hradio) as (cands & c & Hc & ? & ? & Hres).
  assert (Hsafe1 : throws (selectedServices st1) d = false).
  { apply not_true_iff_false. rewrite throws_spec. intros (m & Hm & Hcm & Him).
    rewrite Hst1 in Hm. cbn in Hm.
    destruct (decide (n = m)) as [<-|Hne]; [congruence|].
    rewrite lookup_insert_ne in Hm by done.
    apply not_true_iff_false in Hsafe. apply Hsafe, throws_spec. by exists m. }
  exists cands, c. repeat (split; [done|]).
  change (run (handler gw' OpValidate) st1) with (run (handleValidation gw') st1).
  rewrite (validation_conversation gw' st1 d Hd1 Hkeys Hsafe1). cbn.
  by rewrite resolved_lookup, Hpick.
Qed.

#[local] Arguments blank : simpl never.

Lemma run_ignores_error gw op e st :
  enabled (setError e st) (Click op) = enabled st (Click op) /\
  run (handler gw op) (setError e st) = run (handler gw op) st.
Proof.
  destruct op; (split; [reflexivity|]); unfold_act; unfold clarifyBody; cbn;
    repeat (split_inner; cbn); reflexivity.
Qed.

Lemma failed_state gw op st msg :
  idle st ->
  enabled st (Click op) = true ->
  error (next gw (Click op) st) = Some msg ->
  match op with
  | OpClassify =>
      next gw (Click op) st = setError (Some msg) st \/
      exists c, next gw (Click op) st
                = setError (Some msg) (setClassification (Some c) st)
  | OpValidate =>
      next gw (Click op) st = setError (Some msg) st \/
      exists d,
        decomposition st = Some d /\
        throws (selectedServices st) d = false /\
        next gw (Click op) st =
          setError (Some msg)
            (setValidatedServices (Object_keys (resolved (selectedServices st) d))
               (setConversationState
                  {| user_request_original :=
                       user_request_original (conversationState st);
                     services_valides := resolved (selectedServices st) d;
                     conv_services_identifies := services_identifies d;
                     historique := historique (conversationState st) |} st))
  | _ => next gw (Click op) st = setError (Some msg) st
  end.
Proof.
  intros [Hl Hlab] Hen.
  pose proof (enabled_card st _ Hen) as Hstep.
  pose proof (enabled_operation st _ Hen) as [_ Hpre].
  unfold next, dispatch. rewrite Hen.
  destruct st as [step input load label err cls dec sel val clar alts fin conv].
  cbn in Hl, Hlab, Hstep, Hpre. subst load label.
  destruct op; cbn in Hstep, Hpre; subst step.
  - unfold_act. cbn. rewrite Hpre. cbn.
    repeat (split_inner; cbn); intros [= <-]; eauto.
  - unfold_act. cbn. rewrite Hpre. cbn.
    destruct dec as [d|].
    + rewrite buildValidated_cases. destruct (throws sel d) eqn:Hthrows; cbn.
      * intros [= <-]. by left.
      * repeat (split_inner; cbn); intros [= <-]; right; exists d; eauto.
    + exfalso. revert Hen. cbn. unfold step2. cbn. done.
  - unfold_act. cbn. rewrite Hpre. cbn.
    repeat (split_inner; cbn); intros [= <-]; eauto.
  - unfold_act. cbn.
    repeat (split_inner; cbn); intros [= <-]; eauto.
  - unfold_act. cbn.
    repeat (split_inner; cbn); intros [= <-]; eauto.
Qed.

Lemma run_ignores_classification gw c st :
  enabled (setClassification c st) (Click OpClassify)
    = enabled st (Click OpClassify) /\
  sent (run (handler gw OpClassify) (setClassification c st))
    = sent (run (handler gw OpClassify) st) /\
  setClassification
    (classification (hooks (run (handler gw OpClassify) (setClassification c st))))
    (hooks (run (handler gw OpClassify) st))
  = hooks (run (handler gw OpClassify) (setClassification c st)).
Proof.
  split; [reflexivity|]. unfold_act. cbn.
  repeat (split_inner; cbn); split; reflexivity.
Qed.

Lemma run_validation_overwrites gw st d v sv si :
  decomposition st = Some d ->
  Nat.eqb (length (Object_keys (selectedServices st))) 0 = false ->
  throws (selectedServices st) d = false ->
  let stored :=
    setValidatedServices v
      (setConversationState
         {| user_request_original := user_request_original (conversationState st);
            services_valides := sv;
            conv_services_identifies := si;
            historique := historique (conversationState st) |} st) in
  enabled stored (Click OpValidate) = enabled st (Click OpValidate) /\
  run (handler gw OpValidate) stored = run (handler gw OpValidate) st.
Proof.
  intros Hd Hkeys Hquiet. cbv zeta. split; [reflexivity|].
  unfold_act. cbn. rewrite Hkeys, Hd, (buildValidated_plain d _ Hquiet). cbn.
  repeat (split_inner; cbn); reflexivity.
Qed.

(** X18.  After a click that ended with an error the same button is still
    enabled, and clicking it again gives what the click would have given on
    the state before the failure: the same requests and the same hooks, but
    that a classification stored by a click whose decomposition failed
    stays stored if the new classification call fails. *)
Theorem failed_operation_can_be_retried gw gw' op st msg :
  reachable st ->
  enabled st (Click op) = true ->
  error (next gw (Click op) st) = Some msg ->
  let failed := next gw (Click op) st in
  enabled failed (Click op) = true /\
  sent (dispatch gw' (Click op) failed) = sent (dispatch gw' (Click op) st) /\
  setClassification (classification (next gw' (Click op) failed))
    (next gw' (Click op) st)
  = next gw' (Click op) failed /\
  (op <> OpClassify -> next gw' (Click op) failed = next gw' (Click op) st).
Proof.
  intros Hst Hen Herr. cbv zeta.
  pose proof (failed_state gw op st msg (reachable_idle st Hst) Hen Herr) as Hform.
  pose proof (enabled_operation st _ Hen) as [_ Hpre].
  assert (Hsame : forall st0,
    enabled st0 (Click op) = true ->
    run (handler gw' op) st0 = run (handler gw' op) st ->
    enabled st0 (Click op) = true /\
    sent (dispatch gw' (Click op) st0) = sent (dispatch gw' (Click op) st) /\
    setClassification (classification (next gw' (Click op) st0))
      (next gw' (Click op) st) = next gw' (Click op) st0 /\
    (op <> OpClassify -> next gw' (Click op) st0 = next gw' (Click op) st)).
  { intros st0 Hen0 Hrun. unfold next, dispatch. rewrite Hen0, Hen.
    change (run (callback gw' (Click op)) st0) with (run (handler gw' op) st0).
    change (run (callback gw' (Click op)) st) with (run (handler gw' op) st).
    rewrite Hrun. repeat split; try done.
    by destruct (hooks (run (handler gw' op) st)). }
  destruct op.
  - destruct Hform as [-> | [c ->]].
    + destruct (run_ignores_error gw' OpClassify (Some msg) st) as [He Hr].
      apply Hsame; [by rewrite He|done].
    + destruct (run_ignores_error gw' OpClassify (Some msg)
                  (setClassification (Some c) st)) as [He Hr].
      destruct (run_ignores_classification gw' (Some c) st) as (He' & Hs & Hh).
      unfold next, dispatch. rewrite He, He', Hen.
      change (run (callback gw' (Click OpClassify)) ?s)
        with (run (handler gw' OpClassify) s).
      rewrite Hr. repeat split; done.
  - destruct Hform as [-> | (d & Hd & Hquiet & ->)]; cbn in Hpre.
    { destruct (run_ignores_error gw' OpValidate (Some msg) st) as [He Hr].
      apply Hsame; [by rewrite He|done]. }
    destruct (run_ignores_error gw' OpValidate (Some msg)
      (setValidatedServices (Object_keys (resolved (selectedServices st) d))
         (setConversationState
            {| user_request_original := user_request_original (conversationState st);
               services_valides := resolved (selectedServices st) d;
               conv_services_identifies := services_identifies d;
               historique := historique (conversationState st) |} st)))
      as [He Hr].
    destruct (run_validation_overwrites gw' st d
                (Object_keys (resolved (selectedServices st) d))
                (resolved (selectedServices st) d) (services_identifies d)
                Hd Hpre Hquiet)
      as [He' Hr'].
    apply Hsame; [by rewrite He, He'|by rewrite Hr, Hr'].
  - rewrite Hform. destruct (run_ignores_error gw' OpClarify (Some msg) st) as [He Hr].
    apply Hsame; [by rewrite He|done].
  - rewrite Hform. destruct (run_ignores_error gw' OpAlternatives (Some msg) st) as [He Hr].
    apply Hsame; [by rewrite He|done].
  - rewrite Hform. destruct (run_ignores_error gw' OpFinish (Some msg) st) as [He Hr].
    apply Hsame; [by rewrite He|done].
Qed.

(** ** Names of members of [Object.prototype] *)

(** X24.  When no pick is named like a member of [Object.prototype], the
    loop of [handleValidation] returns without an exception exactly the
    names that have a pick whose id occurs in the catalogue's list for the
    name, each with the candidate of that list that has the picked id (the
    first one, should the id occur twice); picks that designate nothing
    are dropped. *)
Theorem resolve_exact_for_plain_names (picks : gmap string Pick) (d : Decomposition) :
  plain_names picks = true ->
  exists validated,
    buildValidated picks (Some d) = inr validated /\
    (forall serviceName,
       is_Some (validated !! serviceName) <->
       exists serviceId cands,
         picks !! serviceName = Some (Id serviceId) /\
         candidates d !! serviceName = Some cands /\
         exists c, c ∈ cands /\ service_id c = serviceId) /\
    (forall serviceName c,
       validated !! serviceName = Some c <->
       exists serviceId cands,
         picks !! serviceName = Some serviceId /\
         candidates d !! serviceName = Some cands /\
         List.find (fun c' => same_id (service_id c') serviceId) cands = Some c) /\
    (forall serviceName c,
       validated !! serviceName = Some c ->
       exists cands,
         picks !! serviceName = Some (Id (service_id c)) /\
         candidates d !! serviceName = Some cands /\ c ∈ cands).
Proof.
  intros Hplain. exists (resolved picks d).
  split; [by apply buildValidated_plain, plain_names_throws|].
  apply resolved_exact.
Qed.

(** A service named like a member of [Object.prototype] passes the
    completeness check without a pick: of "Camera" and "constructor" only
    the camera is picked, and the validation generates the intent. *)
Example unpicked_inherited_name_passes :
  let gw := Scenario.gateway_round1 Scenario.round1_unpicked Scenario.round2_plain in
  let w := dispatch gw (Click OpValidate) Scenario.camera_of_two in
  selectedServices Scenario.camera_of_two = {[ "Camera" := Id "cam-A" ]} /\
  refusedServices (selectedServices Scenario.camera_of_two)
    (services_identifies Scenario.round1_unpicked) = [] /\
  length (sent w) = 1 /\
  activeStep (hooks w) = 4 /\
  services_valides (conversationState (hooks w))
    = {[ "Camera" := Scenario.candidate "cam-A" ]}.
Proof. conjs; vm_compute; reflexivity. Qed.

(** A service named like a member of [Object.prototype] and named as
    pre-validated is taken for validated: its pick is written with an
    [undefined] id, and the next validation throws. *)
Example inherited_name_is_prefilled :
  let gw := Scenario.gateway Scenario.round2_named in
  let w := dispatch gw (Click OpValidate) (Scenario.clarified gw) in
  services_valides (conversationState (Scenario.clarified gw))
    = {[ "Camera" := Scenario.candidate "cam-A" ]} /\
  selectedServices (Scenario.clarified gw) = {[ "toString" := Undefined ]} /\
  enabled (Scenario.clarified gw) (Click OpValidate) = true /\
  sent w = [] /\
  activeStep (hooks w) = 2 /\
  conversationState (hooks w) = conversationState (Scenario.clarified gw) /\
  error (hooks w) <> None.
Proof. conjs; vm_compute; (reflexivity || discriminate). Qed.

(** X25.  The loop of [handleValidation] throws exactly when some pick is
    named like a member of [Object.prototype] and the catalogue has no
    entry of its own under that name.  The validation then shows the
    message of the exception and nothing else happens: no request, no
    change of step, of the conversation state, of the validated names. *)
Theorem validation_throws_on_inherited_names_only gw st d :
  enabled st (Click OpValidate) = true ->
  decomposition st = Some d ->
  ((exists message, buildValidated (selectedServices st) (Some d) = inl message) <->
   exists serviceName,
     is_Some (selectedServices st !! serviceName) /\
     candidates d !! serviceName = None /\ inherited serviceName = true) /\
  ((exists message, buildValidated (selectedServices st) (Some d) = inl message) ->
   let w := dispatch gw (Click OpValidate) st in
   sent w = [] /\
   is_Some (error (hooks w)) /\
   activeStep (hooks w) = activeStep st /\
   conversationState (hooks w) = conversationState st /\
   validatedServices (hooks w) = validatedServices st).
Proof.
  intros Hen Hdec.
  pose proof (enabled_validate st Hen) as (_ & _ & _ & Hkeys).
  assert (Hthrown :
    (exists message, buildValidated (selectedServices st) (Some d) = inl message) <->
    throws (selectedServices st) d = true).
  { rewrite buildValidated_cases. destruct (throws (selectedServices st) d).
    - split; [done|]. intros _. by eexists.
    - split; [by intros [? ?]|done]. }
  split; [by rewrite Hthrown, throws_spec|].
  intros Hthrows. apply Hthrown in Hthrows. cbv zeta.
  unfold dispatch. rewrite Hen.
  change (run (callback gw (Click OpValidate)) st)
    with (run (handleValidation gw) st).
  destruct (validation_thrown gw st d Hdec Hkeys Hthrows)
    as (Hsent & Herr & Hstep & Hconv & Hval & _).
  split; [done|]. split; [rewrite Herr; by eexists|]. by repeat split.
Qed.

Lemma throws_delete picks d serviceName :
  throwing d serviceName = false ->
  throws (delete serviceName picks) d = throws picks d.
Proof.
  intros Hplain. apply eq_true_iff_eq. rewrite !throws_spec. split.
  - intros (n & [p Hp] & Hc & Hi). exists n. split; [|done].
    apply lookup_delete_Some in Hp as [_ Hp]. by eexists.
  - intros (n & [p Hp] & Hc & Hi). exists n. split; [|done].
    exists p. apply lookup_delete_Some. split; [|done]. intros <-.
    unfold throwing in Hplain.
    by rewrite (proj2 (js_get_member (candidates d) serviceName) (conj Hc Hi))
      in Hplain.
Qed.

(** X26.  A pick whose name the catalogue does not list, and which is not
    named like a member of [Object.prototype], is skipped by the loop of
    [handleValidation]: the loop gives what it gives without that pick, and
    no entry for the name. *)
Theorem unlisted_plain_name_is_skipped picks d serviceName serviceId :
  picks !! serviceName = Some serviceId ->
  candidates d !! serviceName = None ->
  inherited serviceName = false ->
  buildValidated picks (Some d)
    = buildValidated (delete serviceName picks) (Some d) /\
  forall validated,
    buildValidated picks (Some d) = inr validated ->
    validated !! serviceName = None.
Proof.
  intros Hpick Hcat Hplain.
  assert (Hnone : pickedCandidate d serviceName serviceId = None).
  { unfold pickedCandidate. by rewrite Hcat. }
  assert (Hquiet : throwing d serviceName = false).
  { unfold throwing. by rewrite (js_get_plain _ _ Hplain), Hcat. }
  split.
  - rewrite !buildValidated_cases, (throws_delete _ _ _ Hquiet).
    destruct (throws picks d); [done|]. f_equal.
    apply map_eq. intros n. rewrite !resolved_lookup.
    destruct (decide (serviceName = n)) as [<-|Hne].
    + rewrite lookup_delete_eq, Hpick. simpl. by rewrite Hnone.
    + by rewrite lookup_delete_ne.
  - intros validated Hv. apply buildValidated_inr in Hv as [_ ->].
    rewrite resolved_lookup, Hpick. simpl. exact Hnone.
Qed.

(** X27.  The clarification request of [frontend/src/App.jsx] carries the
    six fields of the contract: the text of the clarification, the
    validated names, the refused names (the services of the round for which
    [selectedServices[nom]] is falsy), the text of the request field, the
    validated selection and the services of the round that is being
    clarified.  It is the only request of the click. *)
Theorem clarification_request_fields gw st d :
  enabled st (Click OpClarify) = true ->
  decomposition st = Some d ->
  exists refused,
    sent (dispatch gw (Click OpClarify) st) =
      [PostClarify
         {| user_clarification := clarificationResponse st;
            services_valides_noms := validatedServices st;
            services_refuses := refused;
            original_request := userInput st;
            services_valides_data := services_valides (conversationState st);
            services_identifies_precedents := services_identifies d |}] /\
    forall n,
      n ∈ refused <->
      exists s, s ∈ services_identifies d /\ nom s = n /\
                picked (selectedServices st) n = false.
Proof.
  intros Hen Hd.
  pose proof (enabled_clarify st Hen) as (_ & _ & Hblank).
  exists (refusedServices (selectedServices st) (services_identifies d)).
  split; [|intros n; apply elem_of_refused].
  unfold dispatch. rewrite Hen. unfold_act. rewrite Hblank, Hd. cbn.
  by destruct (api_clarify gw _) as [data| |]; cbn;
    [destruct (pre_validated_services data) as [[|]|]|..].
Qed.

(** ** The earlier revision *)









(** X22.  In the earlier revision only a classification click and a reset
    write the recorded request, the identified services and the history of
    the conversation state; a validation writes the validated selection
    and nothing else; a clarification writes nothing of it, so the
    identified services recorded stay those of the first round. *)
Theorem legacy_conversation_has_two_writers gw ev st :
  ev <> ClickReset ->
  ev <> Click OpClassify ->
  let st' := Legacy.next gw ev st in
  user_request_original (conversationState st')
    = user_request_original (conversationState st) /\
  conv_services_identifies (conversationState st')
    = conv_services_identifies (conversationState st) /\
  historique (conversationState st') = historique (conversationState st) /\
  (ev <> Click OpValidate -> conversationState st' = conversationState st).
Proof.
  intros Hr Hc. cbv zeta. unfold Legacy.next, Legacy.dispatch.
  destruct (Legacy.enabled st ev); [|done].
  destruct ev as [| | | | | |[]]; try done; legacy_crunch.
Qed.

(** ** Witnesses *)

Lemma reachable_cases_decomposed : reachable Cases.decomposed.
Proof. apply reachable_decomposed. Qed.

Lemma reachable_cases_camera_picked : reachable Cases.camera_picked.
Proof. constructor. apply reachable_decomposed. Qed.

Lemma reachable_hello_typed : reachable Cases.hello_typed.
Proof. repeat constructor. Qed.

Lemma reachable_greeted : reachable Cases.greeted.
Proof. constructor. apply reachable_hello_typed. Qed.

Lemma reachable_request_typed : reachable Cases.request_typed.
Proof. repeat constructor. Qed.

Lemma reachable_generation_down : reachable Scenario.generation_down.
Proof. apply session_reachable, reachable_decomposed. Qed.


Lemma handlers_release_busy_flag_witness :
  (refuses Scenario.generation_down OpValidate = false /\
   loading (hooks (run (handler Cases.gw_down OpValidate) Scenario.generation_down))
     = false) /\
  (refuses initialState OpClassify = true /\
   enabled initialState (Click OpClassify) = false).
Proof.
  assert (Hruns : refuses Scenario.generation_down OpValidate = false)
    by (vm_compute; reflexivity).
  assert (Hrefuses : refuses initialState OpClassify = true)
    by (vm_compute; reflexivity).
  split; (split; [assumption|]).
  - exact (proj1 (proj1 (handlers_release_busy_flag Cases.gw_down OpValidate
                           Scenario.generation_down) Hruns)).
  - destruct (proj2 (handlers_release_busy_flag Cases.gw OpClassify initialState)
                Hrefuses) as (_ & _ & _ & _ & _ & Hoff).
    exact Hoff.
Defined.

Lemma steps_follow_graph_witness :
  activeStep Cases.camera_picked <= 4 /\
  allowed (activeStep Cases.camera_picked)
    (activeStep (next Cases.gw (Click OpValidate) Cases.camera_picked)) = true.
Proof.
  assert (Hle : activeStep Cases.camera_picked <= 4) by (vm_compute; lia).
  split; [exact Hle|].
  exact (proj1 (steps_follow_graph Cases.gw (Click OpValidate) Cases.camera_picked Hle)).
Defined.

Lemma reset_restores_all_but_busy_flag_witness :
  enabled Cases.clarified ClickReset = true /\
  loading Cases.clarified = false /\
  next Cases.gw ClickReset Cases.clarified = initialState.
Proof.
  assert (Hen : enabled Cases.clarified ClickReset = true) by (vm_compute; reflexivity).
  assert (Hl : loading Cases.clarified = false) by (vm_compute; reflexivity).
  split; [exact Hen|]. split; [exact Hl|].
  exact (proj2 (proj2 (reset_restores_all_but_busy_flag Cases.gw Cases.clarified Hen))
           Hl).
Defined.

Lemma terminal_cards_only_reset_witness :
  (activeStep Cases.greeted = 1 \/ activeStep Cases.greeted = 4) /\
  Click OpClassify <> ClickReset /\
  sent (dispatch Cases.gw (Click OpClassify) Cases.greeted) = [].
Proof.
  assert (Hstep : activeStep Cases.greeted = 1 \/ activeStep Cases.greeted = 4)
    by (left; vm_compute; reflexivity).
  assert (Hev : Click OpClassify <> ClickReset) by discriminate.
  split; [exact Hstep|]. split; [exact Hev|].
  exact (proj1 (terminal_cards_only_reset Cases.gw (Click OpClassify)
                  Cases.greeted Hstep Hev)).
Defined.

Lemma errors_preserve_inputs_witness :
  error (hooks (run (handler Cases.gw_down OpValidate) Scenario.generation_down))
    = Some "generation unavailable" /\
  selectedServices (hooks (run (handler Cases.gw_down OpValidate) Scenario.generation_down))
    = selectedServices Scenario.generation_down.
Proof.
  assert (Herr :
    error (hooks (run (handler Cases.gw_down OpValidate) Scenario.generation_down))
    = Some "generation unavailable") by (vm_compute; reflexivity).
  split; [exact Herr|].
  exact (proj1 (proj2 (proj2 (errors_preserve_inputs Cases.gw_down OpValidate
                                Scenario.generation_down _ Herr)))).
Defined.

Lemma shown_error_is_gateway_failure_witness :
  reachable Scenario.generation_down /\
  enabled Scenario.generation_down (Click OpValidate) = true /\
  omap (reply_failure Cases.gw_down)
    (removelast
       (sent (dispatch Cases.gw_down (Click OpValidate) Scenario.generation_down)))
  = [].
Proof.
  assert (Hen : enabled Scenario.generation_down (Click OpValidate) = true)
    by (vm_compute; reflexivity).
  split; [apply reachable_generation_down|]. split; [exact Hen|].
  exact (proj1 (shown_error_is_gateway_failure Cases.gw_down OpValidate
                  Scenario.generation_down reachable_generation_down Hen)).
Defined.

Lemma non_telecom_is_not_decomposed_witness :
  reachable Cases.hello_typed /\
  enabled Cases.hello_typed (Click OpClassify) = true /\
  api_classify Scenario.gateway_greeting (userInput Cases.hello_typed)
    = Success Cases.greeting /\
  String.eqb (type Cases.greeting) "TELECOM" = false /\
  sent (dispatch Scenario.gateway_greeting (Click OpClassify) Cases.hello_typed)
    = [PostClassify (userInput Cases.hello_typed)].
Proof.
  assert (Hen : enabled Cases.hello_typed (Click OpClassify) = true)
    by (vm_compute; reflexivity).
  assert (Hreply : api_classify Scenario.gateway_greeting (userInput Cases.hello_typed)
                   = Success Cases.greeting) by reflexivity.
  assert (Htype : String.eqb (type Cases.greeting) "TELECOM" = false) by reflexivity.
  split; [apply reachable_hello_typed|]. split; [exact Hen|].
  split; [exact Hreply|]. split; [exact Htype|].
  exact (proj1 (non_telecom_is_not_decomposed Scenario.gateway_greeting
                  Cases.hello_typed Cases.greeting reachable_hello_typed
                  Hen Hreply Htype)).
Defined.

Lemma telecom_request_opens_round_witness :
  reachable Cases.request_typed /\
  enabled Cases.request_typed (Click OpClassify) = true /\
  api_classify Cases.gw (userInput Cases.request_typed) = Success Cases.telecom /\
  String.eqb (type Cases.telecom) "TELECOM" = true /\
  sent (dispatch Cases.gw (Click OpClassify) Cases.request_typed)
    = [PostClassify (userInput Cases.request_typed);
       PostDecompose (userInput Cases.request_typed)].
Proof.
  assert (Hen : enabled Cases.request_typed (Click OpClassify) = true)
    by (vm_compute; reflexivity).
  assert (Hreply : api_classify Cases.gw (userInput Cases.request_typed)
                   = Success Cases.telecom) by reflexivity.
  assert (Htype : String.eqb (type Cases.telecom) "TELECOM" = true) by reflexivity.
  split; [apply reachable_request_typed|]. split; [exact Hen|].
  split; [exact Hreply|]. split; [exact Htype|].
  exact (proj1 (telecom_request_opens_round Cases.gw Cases.request_typed
                  Cases.telecom reachable_request_typed Hen Hreply Htype)).
Defined.

Lemma picks_are_never_withdrawn_witness :
  Click OpValidate <> ClickReset /\
  Click OpValidate <> Click OpClarify /\
  (forall n, is_Some (selectedServices Cases.camera_picked !! n) ->
             is_Some (selectedServices
                        (next Cases.gw (Click OpValidate) Cases.camera_picked) !! n)).
Proof.
  assert (Hr : Click OpValidate <> ClickReset) by discriminate.
  assert (Hc : Click OpValidate <> Click OpClarify) by discriminate.
  split; [exact Hr|]. split; [exact Hc|].
  exact (proj1 (picks_are_never_withdrawn Cases.gw (Click OpValidate)
                  Cases.camera_picked Hr Hc)).
Defined.

Lemma clarification_card_lists_a_refusal_witness :
  enabled Cases.camera_picked (Click OpValidate) = true /\
  decomposition Cases.camera_picked = Some Scenario.round1 /\
  (activeStep (next Cases.gw (Click OpValidate) Cases.camera_picked) = 3 <->
   throws (selectedServices Cases.camera_picked) Scenario.round1 = false /\
   refusedServices (selectedServices Cases.camera_picked)
     (services_identifies Scenario.round1) <> []).
Proof.
  assert (Hen : enabled Cases.camera_picked (Click OpValidate) = true)
    by (vm_compute; reflexivity).
  assert (Hd : decomposition Cases.camera_picked = Some Scenario.round1)
    by (vm_compute; reflexivity).
  split; [exact Hen|]. split; [exact Hd|].
  exact (proj1 (clarification_card_lists_a_refusal Cases.gw Cases.camera_picked
                  Scenario.round1 Hen Hd)).
Defined.

Lemma nothing_recorded_before_a_round_witness :
  reachable Cases.greeted /\
  (is_Some (finalIntent Cases.greeted) <-> activeStep Cases.greeted = 4).
Proof.
  split; [apply reachable_greeted|].
  exact (proj2 (nothing_recorded_before_a_round Cases.greeted reachable_greeted)).
Defined.

Lemma finish_sends_validated_selection_witness :
  reachable Cases.camera_validated /\
  enabled Cases.camera_validated (Click OpFinish) = true /\
  services_valides (conversationState Cases.camera_validated) <> ∅.
Proof.
  assert (Hen : enabled Cases.camera_validated (Click OpFinish) = true)
    by (vm_compute; reflexivity).
  split; [apply reachable_camera_validated|]. split; [exact Hen|].
  exact (proj1 (finish_sends_validated_selection Cases.gw Cases.camera_validated
                  (reachable_camera_validated Cases.gw) Hen)).
Defined.

Lemma radio_pick_is_validated_witness :
  enabled Cases.decomposed (ChangeRadio "Camera" "cam-A") = true /\
  decomposition Cases.decomposed = Some Scenario.round1 /\
  inherited "Camera" = false /\
  throws (selectedServices Cases.decomposed) Scenario.round1 = false /\
  disabled (next Cases.gw (ChangeRadio "Camera" "cam-A") Cases.decomposed) OpValidate
  = loading Cases.decomposed.
Proof.
  assert (Hen : enabled Cases.decomposed (ChangeRadio "Camera" "cam-A") = true)
    by (vm_compute; reflexivity).
  assert (Hd : decomposition Cases.decomposed = Some Scenario.round1)
    by (vm_compute; reflexivity).
  assert (Hplain : inherited "Camera" = false) by (vm_compute; reflexivity).
  assert (Hquiet : throws (selectedServices Cases.decomposed) Scenario.round1 = false)
    by (vm_compute; reflexivity).
  split; [exact Hen|]. split; [exact Hd|].
  split; [exact Hplain|]. split; [exact Hquiet|].
  exact (proj1 (proj2 (radio_pick_is_validated Cases.gw Cases.gw Cases.decomposed
                         Scenario.round1 "Camera" "cam-A"
                         Hen Hd Hplain Hquiet))).
Defined.

Lemma failed_operation_can_be_retried_witness :
  reachable Scenario.generation_down /\
  enabled Scenario.generation_down (Click OpValidate) = true /\
  error (next Cases.gw_down (Click OpValidate) Scenario.generation_down)
    = Some "generation unavailable" /\
  next Cases.gw (Click OpValidate)
    (next Cases.gw_down (Click OpValidate) Scenario.generation_down)
  = next Cases.gw (Click OpValidate) Scenario.generation_down.
Proof.
  assert (Hen : enabled Scenario.generation_down (Click OpValidate) = true)
    by (vm_compute; reflexivity).
  assert (Herr : error (next Cases.gw_down (Click OpValidate) Scenario.generation_down)
                 = Some "generation unavailable") by (vm_compute; reflexivity).
  split; [apply reachable_generation_down|]. split; [exact Hen|]. split; [exact Herr|].
  destruct (failed_operation_can_be_retried Cases.gw_down Cases.gw OpValidate
              Scenario.generation_down _ reachable_generation_down Hen Herr)
    as (_ & _ & _ & Hsame).
  apply Hsame. discriminate.
Defined.

Lemma resolve_exact_for_plain_names_witness :
  plain_names (selectedServices Scenario.camera_only) = true /\
  exists validated,
    buildValidated (selectedServices Scenario.camera_only)
      (Some Scenario.round2_single) = inr validated /\
    validated !! "Camera" = None.
Proof.
  assert (Hplain : plain_names (selectedServices Scenario.camera_only) = true)
    by (vm_compute; reflexivity).
  split; [exact Hplain|].
  destruct (resolve_exact_for_plain_names (selectedServices Scenario.camera_only)
              Scenario.round2_single Hplain) as (validated & Hbuild & _ & Hexact & _).
  exists validated. split; [exact Hbuild|].
  destruct (validated !! "Camera") as [c|] eqn:Hc; [|reflexivity].
  apply Hexact in Hc as (serviceId & cands & Hpick & Hcands & Hfind).
  vm_compute in Hpick. injection Hpick as <-.
  vm_compute in Hcands. injection Hcands as <-.
  vm_compute in Hfind. discriminate Hfind.
Defined.

Lemma validation_throws_on_inherited_names_only_witness :
  enabled Scenario.member_prefilled (Click OpValidate) = true /\
  decomposition Scenario.member_prefilled = Some Scenario.round2_member /\
  ((exists message,
      buildValidated (selectedServices Scenario.member_prefilled)
        (Some Scenario.round2_member) = inl message) <->
   exists serviceName,
     is_Some (selectedServices Scenario.member_prefilled !! serviceName) /\
     candidates Scenario.round2_member !! serviceName = None /\
     inherited serviceName = true).
Proof.
  assert (Hen : enabled Scenario.member_prefilled (Click OpValidate) = true)
    by (vm_compute; reflexivity).
  assert (Hd : decomposition Scenario.member_prefilled = Some Scenario.round2_member)
    by (vm_compute; reflexivity).
  split; [exact Hen|]. split; [exact Hd|].
  exact (proj1 (validation_throws_on_inherited_names_only Scenario.gateway_member
                  Scenario.member_prefilled Scenario.round2_member Hen Hd)).
Defined.

Lemma unlisted_plain_name_is_skipped_witness :
  selectedServices Scenario.camera_unlisted !! "Camera" = Some (Id "cam-A") /\
  candidates Scenario.round2_gone !! "Camera" = None /\
  inherited "Camera" = false /\
  buildValidated (selectedServices Scenario.camera_unlisted) (Some Scenario.round2_gone)
  = buildValidated (delete "Camera" (selectedServices Scenario.camera_unlisted))
      (Some Scenario.round2_gone).
Proof.
  assert (Hpick : selectedServices Scenario.camera_unlisted !! "Camera"
                  = Some (Id "cam-A")) by (vm_compute; reflexivity).
  assert (Hcat : candidates Scenario.round2_gone !! "Camera" = None)
    by (vm_compute; reflexivity).
  assert (Hplain : inherited "Camera" = false) by (vm_compute; reflexivity).
  split; [exact Hpick|]. split; [exact Hcat|]. split; [exact Hplain|].
  exact (proj1 (unlisted_plain_name_is_skipped
                  (selectedServices Scenario.camera_unlisted) Scenario.round2_gone
                  "Camera" (Id "cam-A") Hpick Hcat Hplain)).
Defined.

Lemma clarification_request_fields_witness :
  enabled (Scenario.typed Cases.gw) (Click OpClarify) = true /\
  decomposition (Scenario.typed Cases.gw) = Some Scenario.round1 /\
  exists refused,
    sent (dispatch Cases.gw (Click OpClarify) (Scenario.typed Cases.gw)) =
      [PostClarify
         {| user_clarification := "SMS only";
            services_valides_noms := ["Camera"];
            services_refuses := refused;
            original_request := Scenario.request;
            services_valides_data := {[ "Camera" := Scenario.candidate "cam-A" ]};
            services_identifies_precedents := services_identifies Scenario.round1 |}].
Proof.
  assert (Hen : enabled (Scenario.typed Cases.gw) (Click OpClarify) = true)
    by (vm_compute; reflexivity).
  assert (Hd : decomposition (Scenario.typed Cases.gw) = Some Scenario.round1)
    by (vm_compute; reflexivity).
  split; [exact Hen|]. split; [exact Hd|].
  destruct (clarification_request_fields Cases.gw (Scenario.typed Cases.gw)
              Scenario.round1 Hen Hd) as (refused & Hsent & _).
  exists refused. rewrite Hsent. vm_compute. reflexivity.
Defined.


Lemma legacy_conversation_has_two_writers_witness :
  Click OpClarify <> ClickReset /\
  Click OpClarify <> Click OpClassify /\
  conversationState (Legacy.next Cases.old (Click OpClarify) Cases.old_typed)
  = conversationState Cases.old_typed.
Proof.
  assert (Hr : Click OpClarify <> ClickReset) by discriminate.
  assert (Hc : Click OpClarify <> Click OpClassify) by discriminate.
  split; [exact Hr|]. split; [exact Hc|].
  destruct (legacy_conversation_has_two_writers Cases.old (Click OpClarify)
              Cases.old_typed Hr Hc) as (_ & _ & _ & Hsame).
  apply Hsame. discriminate.
Defined.

(** ** The revisions apart *)

(** After a clarification that leaves the camera as the only service, the
    earlier revision still records the two services of the first round;
    the current revision records the services of the round at hand. *)
Example legacy_identified_services_are_stale :
  (services_identifies <$> decomposition Cases.old_clarified)
    = Some [Scenario.service "Camera"] /\
  conv_services_identifies (conversationState Cases.old_clarified)
    = [Scenario.service "Camera"; Scenario.service "Alert"] /\
  conv_services_identifies (conversationState Scenario.camera_only)
    = [Scenario.service "Camera"].
Proof. conjs; vm_compute; reflexivity. Qed.
